(** * SpaceReport: the aggregation helpers and filters of
      [pages/2_Application_Drive.py]

    A shallow embedding of the pure parts of the page script: the
    threshold classifiers, [get_date_range], [get_latest_stats], and the
    date filter, growth analysis and table search of [main].

    Conventions of the embedding.
    - A dataframe is the list of its rows, in index order; a row is a
      [Reading] with the six columns of the warehouse table, all present.
      [get_latest_stats], whose grouping treats missing cells on their
      own, is also embedded on frames with missing cells ([Nullable]).
    - A pandas [Timestamp] is its count of nanoseconds since the epoch
      (the [datetime64[ns]] representation); a calendar [date] is its day
      number, so that comparing dates is comparing integers.
    - The float columns are idealised as exact rationals ([Q], compared
      with [==]); rounding is outside the embedding.
    - A difference of two timestamps is a [Timedelta] of at most
      2^63 - 1 nanoseconds; beyond that the subtraction raises.
    - [DataFrame.sort_values] uses pandas' default sort, which does not
      fix the order of rows with equal keys: it is an interface
      ([SortValues]) and every theorem holds for each implementation. *)

From Stdlib Require Import ZArith QArith Qfield Lqa Bool List String Ascii Lia.
From Stdlib Require Import Permutation Sorted Mergesort Orders.
Import ListNotations.

Local Open Scope string_scope.
Local Open Scope list_scope.
Local Open Scope Z_scope.

(** ** Data model *)

Definition Timestamp := Z.
Definition date := Z.

Record Reading := {
  Date : Timestamp;
  Drive : string;
  TotalSizeGB : Q;
  UsedSpaceGB : Q;
  FreeSpaceGB : Q;
  FreeSpacePercent : Q
}.

Definition DataFrame := list Reading.

(** [df.empty] *)
Definition empty {A : Type} (df : list A) : bool :=
  match df with
  | [] => true
  | _ :: _ => false
  end.

Definition ns_per_day : Z := 86400 * 1000000000.

(** [Timestamp.date()]: the calendar day a timestamp falls on. *)
Definition date_of (t : Timestamp) : date := t / ns_per_day.

(** [Timedelta.days]: whole days of a difference of timestamps. *)
Definition days (delta : Z) : Z := delta / ns_per_day.

(** [x < y] on the float columns. *)
Definition Qltb (x y : Q) : bool := negb (Qle_bool y x).

(** ** Threshold classifiers *)

Definition get_status_class (free_percent : Q) : string :=
  if Qltb free_percent 5 then "status-emergency"
  else if Qltb free_percent 10 then "status-critical"
  else if Qltb free_percent 20 then "status-warning"
  else "status-healthy".

Definition get_status_text (free_percent : Q) : string :=
  if Qltb free_percent 5 then "Emergency"
  else if Qltb free_percent 10 then "Critical"
  else if Qltb free_percent 20 then "Warning"
  else "Healthy".

Definition get_border_color (free_percent : Q) : string :=
  if Qltb free_percent 5 then "#ff6b6b"
  else if Qltb free_percent 10 then "#ff8787"
  else if Qltb free_percent 20 then "#ffd43b"
  else "#51cf66".

(** ** Exceptions

    The run-time errors the modelled code could raise. *)

Inductive exn := ZeroDivisionError | IndexError | OutOfBoundsDatetime.

Definition result (A : Type) : Type := A + exn.

Definition ret {A : Type} (a : A) : result A := inl a.
Definition raise {A : Type} (e : exn) : result A := inr e.

Definition bind {A B : Type} (m : result A) (k : A -> result B) : result B :=
  match m with
  | inl a => k a
  | inr e => inr e
  end.

Notation "x <- m ;; k" := (bind m (fun x => k))
  (at level 61, m at next level, right associativity).

(** ** pandas primitives *)

(** [len(df)] *)
Definition len {A : Type} (df : list A) : Z := Z.of_nat (List.length df).

(** [df.iloc[i]], negative positions counting from the end. *)
Definition iloc (df : DataFrame) (i : Z) : result Reading :=
  let j := if i <? 0 then len df + i else i in
  if (0 <=? j) && (j <? len df) then
    match nth_error df (Z.to_nat j) with
    | Some row => ret row
    | None => raise IndexError
    end
  else raise IndexError.

(** [x / d] with an integer divisor. *)
Definition truediv (x : Q) (d : Z) : result Q :=
  if d =? 0 then raise ZeroDivisionError else ret (x / inject_Z d)%Q.

(** The greatest count of nanoseconds a [Timedelta] holds. *)
Definition int64_max : Z := 2 ^ 63 - 1.

(** [t - u] on two [Timestamp]s: the [Timedelta] between them, in
    nanoseconds; pandas raises when it does not fit. *)
Definition timestamp_sub (t u : Timestamp) : result Z :=
  let delta := t - u in
  if (- int64_max <=? delta) && (delta <=? int64_max) then ret delta
  else raise OutOfBoundsDatetime.

(** [Series.isin(values)] on the Drive column. *)
Definition isin (values : list string) (r : Reading) : bool :=
  existsb (String.eqb (Drive r)) values.

(** [Series.sum()]: accumulation from zero. *)
Definition sum (col : list Q) : Q := fold_left Qplus col 0%Q.

(** [Series.mean()]; [None] stands for the NaN of an empty column. *)
Definition mean (col : list Q) : option Q :=
  if empty col then None else Some (sum col / inject_Z (len col))%Q.

(** [Series.min()] and [Series.max()] of a column whose first entry is
    [x]. *)
Definition col_min (x : Z) (rest : list Z) : Z := fold_left Z.min rest x.
Definition col_max (x : Z) (rest : list Z) : Z := fold_left Z.max rest x.

(** [df.sort_values('Date', ascending=...)].  pandas sorts with its
    default algorithm, under which rows of equal date may come out in any
    order; the interface fixes only what every implementation provides. *)
Class SortValues := {
  sort_values : bool -> DataFrame -> DataFrame;
  sort_values_perm :
    forall ascending df, Permutation df (sort_values ascending df);
  sort_values_ascending :
    forall df, StronglySorted (fun a b => Date a <= Date b) (sort_values true df);
  sort_values_descending :
    forall df, StronglySorted (fun a b => Date b <= Date a) (sort_values false df)
}.

(** The group keys of [groupby('Drive')]: the distinct drives, ascending. *)
Module DriveOrder <: TotalLeBool.
Definition t := string.
Definition leb := String.leb.
Definition leb_total := String.leb_total.
End DriveOrder.

Module DriveSort := Sort DriveOrder.

Definition group_keys (df : DataFrame) : list string :=
  DriveSort.sort (nodup string_dec (map Drive df)).

(** [df.groupby('Drive').first().reset_index()]: for each key, the first
    row of its group in the order of [df]. *)
Definition groupby_first (df : DataFrame) : DataFrame :=
  flat_map
    (fun key =>
       match find (fun r => Drive r =? key)%string df with
       | Some row => [row]
       | None => []
       end)
    (group_keys df).

(** ** [get_date_range]

    [today] is the value of [date.today()]; [df.empty] is read off the
    Date column, whose least and greatest entries the other branch
    takes. *)
Definition get_date_range (today : date) (df : DataFrame) : date * date :=
  match map Date df with
  | [] => (today, today)
  | d :: ds => (date_of (col_min d ds), date_of (col_max d ds))
  end.

(** ** [get_latest_stats] *)

Record Stats := {
  total_size : Q;
  total_used : Q;
  total_free : Q;
  avg_free_percent : option Q;
  critical_drives : Z;
  latest_data : DataFrame
}.

(** The rows [get_latest_stats] works on after its [isin] step, which a
    missing or empty selection skips. *)
Definition restrict (df : DataFrame) (selected_drives : option (list string))
  : DataFrame :=
  match selected_drives with
  | Some drives => if empty drives then df else filter (isin drives) df
  | None => df
  end.

Definition get_latest_stats `{SortValues}
    (df : DataFrame) (selected_drives : option (list string)) : option Stats :=
  if empty df then None
  else
    let df := restrict df selected_drives in
    if empty df then None
    else
      let latest := groupby_first (sort_values false df) in
      Some {|
        total_size := sum (map TotalSizeGB latest);
        total_used := sum (map UsedSpaceGB latest);
        total_free := sum (map FreeSpaceGB latest);
        avg_free_percent := mean (map FreeSpacePercent latest);
        critical_drives :=
          len (filter (fun r => Qltb (FreeSpacePercent r) 10) latest);
        latest_data := latest
      |}.

(** ** The filters of [main] *)

(** The mask [(Date.dt.date >= start_date) & (Date.dt.date <= end_date)]. *)
Definition date_mask (start_date end_date : date) (r : Reading) : bool :=
  (start_date <=? date_of (Date r)) && (date_of (Date r) <=? end_date).

Definition date_filter (df : DataFrame) (start_date end_date : date) : DataFrame :=
  filter (date_mask start_date end_date) df.

Definition filtered_df (df : DataFrame) (start_date end_date : date)
    (selected_drives : list string) : DataFrame :=
  let filtered := date_filter df start_date end_date in
  if empty selected_drives then filtered
  else filter (isin selected_drives) filtered.

(** ** Growth analysis (tab 3 of [main]) *)

Record GrowthRow := {
  growth_drive : string;
  Initial : Q;
  Current : Q;
  Growth : Q;
  AvgDailyGrowth : Q
}.

Definition drive_rows `{SortValues} (filtered : DataFrame) (drive : string)
  : DataFrame :=
  sort_values true (filter (fun r => Drive r =? drive)%string filtered).

(** The body of the loop for a drive with at least two readings. *)
Definition growth_row (drive : string) (drive_df : DataFrame) : result GrowthRow :=
  first <- iloc drive_df 0 ;;
  last <- iloc drive_df (-1) ;;
  let first_used := UsedSpaceGB first in
  let last_used := UsedSpaceGB last in
  let growth := (last_used - first_used)%Q in
  delta <- timestamp_sub (Date last) (Date first) ;;
  let days := days delta in
  avg_daily_growth <- (if 0 <? days then truediv growth days else ret 0%Q) ;;
  ret {| growth_drive := drive;
         Initial := first_used;
         Current := last_used;
         Growth := growth;
         AvgDailyGrowth := avg_daily_growth |}.

(** [for drive in selected_drives: ...], threading [growth_data]. *)
Fixpoint growth_loop `{SortValues} (drives : list string) (filtered : DataFrame)
    (growth_data : list GrowthRow) : result (list GrowthRow) :=
  match drives with
  | [] => ret growth_data
  | drive :: rest =>
      let drive_df := drive_rows filtered drive in
      if 2 <=? len drive_df then
        row <- growth_row drive drive_df ;;
        growth_loop rest filtered (growth_data ++ [row])
      else growth_loop rest filtered growth_data
  end.

Definition growth_analysis `{SortValues} (selected_drives : list string)
    (filtered : DataFrame) : result (list GrowthRow) :=
  growth_loop selected_drives filtered [].

(** ** Table search (tab 4 of [main])

    [Series.str.contains(search_query, case=False, na=False)] leaves
    pandas' [regex=True] in force: the query is compiled as a regular
    expression and searched with [re.IGNORECASE].  The embedding covers
    the patterns built from ordinary characters and the wildcard [.];
    a pattern using any other special character is outside it
    ([re_compile] answers [None]).  Text is ASCII. *)

Inductive re_item :=
| Lit (c : ascii)
| AnyChar.

Definition special_chars : list ascii :=
  list_ascii_of_string ".^$*+?{}[]\|()".

Definition is_special (c : ascii) : bool := existsb (Ascii.eqb c) special_chars.

Fixpoint re_compile (pat : string) : option (list re_item) :=
  match pat with
  | EmptyString => Some []
  | String c rest =>
      if (c =? ".")%char then option_map (cons AnyChar) (re_compile rest)
      else if is_special c then None
      else option_map (cons (Lit c)) (re_compile rest)
  end.

Definition to_lower (c : ascii) : ascii :=
  let n := nat_of_ascii c in
  if ((65 <=? n) && (n <=? 90))%nat then ascii_of_nat (n + 32) else c.

Definition newline : ascii := ascii_of_nat 10.

Definition item_match (i : re_item) (x : ascii) : bool :=
  match i with
  | Lit c => (to_lower c =? to_lower x)%char
  | AnyChar => negb (x =? newline)%char
  end.

(** The pattern matches a prefix of [s]. *)
Fixpoint match_here (items : list re_item) (s : string) : bool :=
  match items, s with
  | [], _ => true
  | _ :: _, EmptyString => false
  | i :: items', String x s' => item_match i x && match_here items' s'
  end.

(** [pattern.search(s) is not None] *)
Fixpoint re_search (items : list re_item) (s : string) : bool :=
  match_here items s
  || match s with
     | EmptyString => false
     | String _ s' => re_search items s'
     end.

(** The filter of tab 4; [astype_str row] lists the string forms of the
    row's columns ([row.astype(str)]). *)
Definition table_search (astype_str : Reading -> list string)
    (search_query : string) (display_df : DataFrame) : option DataFrame :=
  if (search_query =? "")%string then Some display_df
  else
    match re_compile search_query with
    | Some pattern =>
        Some (filter (fun row => existsb (re_search pattern) (astype_str row))
                     display_df)
    | None => None
    end.

(** ** The page: [main]

    What the page ends up showing. *)

(** [Series.unique()]: the distinct values in order of first appearance. *)
Fixpoint unique (col : list string) : list string :=
  match col with
  | [] => []
  | d :: rest => d :: filter (fun x => negb (x =? d)%string) (unique rest)
  end.

(** [sorted(df['Drive'].unique().tolist())], the options and the default
    of the drive multiselect. *)
Definition all_drives (df : DataFrame) : list string :=
  DriveSort.sort (unique (map Drive df)).

Inductive page :=
| NoDataWarning
| NoFilteredDataWarning
| StatisticsError
| Report (stats : Stats) (filtered : DataFrame).

(** [df] is the frame [get_space_data] returned; [start_date], [end_date]
    and [selected_drives] are the values of the three filter widgets. *)
Definition main `{SortValues} (df : DataFrame) (start_date end_date : date)
    (selected_drives : list string) : page :=
  if empty df then NoDataWarning
  else
    let filtered := filtered_df df start_date end_date selected_drives in
    if empty filtered then NoFilteredDataWarning
    else
      match get_latest_stats filtered (Some selected_drives) with
      | None => StatisticsError
      | Some stats => Report stats filtered
      end.

(** ** Trend charts (tab 1 of [main]) *)

Record Trace := {
  trace_name : string;
  trace_x : list Timestamp;
  trace_y : list Q
}.

(** One [go.Scatter] per drive of [filtered_df['Drive'].unique()]. *)
Definition trend_figure `{SortValues} (suffix : string) (column : Reading -> Q)
    (filtered : DataFrame) : list Trace :=
  map (fun drive =>
         let drive_data := drive_rows filtered drive in
         {| trace_name := (drive ++ suffix)%string;
            trace_x := map Date drive_data;
            trace_y := map column drive_data |})
      (unique (map Drive filtered)).

Definition fig_trend `{SortValues} (filtered : DataFrame) : list Trace :=
  trend_figure " Used Space" UsedSpaceGB filtered.

Definition fig_free `{SortValues} (filtered : DataFrame) : list Trace :=
  trend_figure " Free %" FreeSpacePercent filtered.

(** ** Drive status cards (tab 2 of [main]) *)

Record DriveCard := {
  card_drive : string;
  card_status_class : string;
  card_status_text : string;
  card_used_percent : Q;
  card_border_color : string
}.

(** The body of [for _, row in latest_status.iterrows()]. *)
Definition drive_card (row : Reading) : DriveCard :=
  {| card_drive := Drive row;
     card_status_class := get_status_class (FreeSpacePercent row);
     card_status_text := get_status_text (FreeSpacePercent row);
     card_used_percent := (100 - FreeSpacePercent row)%Q;
     card_border_color := get_border_color (FreeSpacePercent row) |}.

Definition drive_cards (latest_status : DataFrame) : list DriveCard :=
  map drive_card latest_status.

(** ** Growth chart (tab 3 of [main]) *)

(** ['#ff6b6b' if x > 0 else '#51cf66'] *)
Definition marker_color (x : Q) : string :=
  if Qltb 0 x then "#ff6b6b" else "#51cf66".

Record Bar := {
  bar_x : string;
  bar_y : Q;
  bar_color : string
}.

(** The bars of [fig_growth]; [None] when [growth_data] is empty and no
    chart is drawn. *)
Definition fig_growth (growth_data : list GrowthRow) : option (list Bar) :=
  if empty growth_data then None
  else Some (map (fun row => {| bar_x := growth_drive row;
                                bar_y := Growth row;
                                bar_color := marker_color (Growth row) |})
                 growth_data).

(** ** Notions used in the statements *)

(** The sum of a column of the rows, written as a mathematical sum. *)
Definition total (column : Reading -> Q) (rows : DataFrame) : Q :=
  fold_right (fun r acc => column r + acc)%Q 0%Q rows.

(** The row the loop body builds from a non-empty frame. *)
Definition growth_row_of (drive : string) (first last : Reading) : GrowthRow :=
  let growth := (UsedSpaceGB last - UsedSpaceGB first)%Q in
  let elapsed := days (Date last - Date first) in
  {| growth_drive := drive;
     Initial := UsedSpaceGB first;
     Current := UsedSpaceGB last;
     Growth := growth;
     AvgDailyGrowth := if 0 <? elapsed then (growth / inject_Z elapsed)%Q else 0%Q |}.

(** Case-insensitive substring, as the spec words the search: [q] occurs in
    [s] once both are put in lower case. *)
Fixpoint lower (s : string) : string :=
  match s with
  | EmptyString => EmptyString
  | String c s' => String (to_lower c) (lower s')
  end.

Definition substring (q s : string) : Prop :=
  exists pre post, s = (pre ++ q ++ post)%string.

Definition contains_ci (q s : string) : Prop := substring (lower q) (lower s).

(** A query without special characters: every character stands for
    itself in the pattern. *)
Definition literal (q : string) : Prop :=
  Forall (fun c => is_special c = false) (list_ascii_of_string q).

Fixpoint literals (q : string) : list re_item :=
  match q with
  | EmptyString => []
  | String c q' => Lit c :: literals q'
  end.

(** The order of drive names. *)
Definition drive_le (a b : string) : Prop := String.leb a b = true.

(** How severe a status label is. *)
Definition severity (status_text : string) : nat :=
  if (status_text =? "Emergency")%string then 3
  else if (status_text =? "Critical")%string then 2
  else if (status_text =? "Warning")%string then 1
  else 0.

(** A card labelled Emergency or Critical. *)
Definition is_alert (card : DriveCard) : bool :=
  (card_status_text card =? "Emergency")%string
  || (card_status_text card =? "Critical")%string.

(** The rows the growth loop appends for a list of drives, as a plain
    function. *)
Definition growth_rows_of `{SortValues} (filtered : DataFrame)
    (drives : list string) : list GrowthRow :=
  flat_map
    (fun drive =>
       match drive_rows filtered drive with
       | first :: rest =>
           if 2 <=? len (first :: rest)
           then [growth_row_of drive first (last (first :: rest) first)]
           else []
       | [] => []
       end)
    drives.

(** A selected drive whose first and last readings lie further apart than
    a [Timedelta] holds. *)
Definition overflows `{SortValues} (filtered : DataFrame) (drive : string) : bool :=
  match drive_rows filtered drive with
  | first :: rest =>
      (2 <=? len (first :: rest))
      && negb (Date (last (first :: rest) first) - Date first <=? int64_max)
  | [] => false
  end.

(** No two readings of a selected drive lie further apart than a
    [Timedelta] holds (2^63 - 1 ns, about 292 years). *)
Definition no_overflow (filtered : DataFrame) (selected_drives : list string) : Prop :=
  forall d r r',
    In d selected_drives -> In r filtered -> In r' filtered ->
    Drive r = d -> Drive r' = d -> Date r' - Date r <= int64_max.

(** A character of the query against a character of the text: [.] stands
    for any character but a newline, any other character for itself up to
    case. *)
Definition char_matches (q x : ascii) : Prop :=
  if (q =? ".")%char then x <> newline else to_lower q = to_lower x.

(** The query matches a window of the text character by character. *)
Definition window_matches (q s : string) : Prop :=
  exists pre mid post,
    s = (pre ++ mid ++ post)%string /\
    Forall2 char_matches (list_ascii_of_string q) (list_ascii_of_string mid).

(** A query the embedding covers: ordinary characters and [.]. *)
Definition plain_or_dot (q : string) : Prop :=
  Forall (fun c => c = "."%char \/ is_special c = false) (list_ascii_of_string q).

(** The compiled form of a query made of ordinary characters and [.]. *)
Definition pattern_of (q : string) : list re_item :=
  map (fun c => if (c =? ".")%char then AnyChar else Lit c) (list_ascii_of_string q).

(** A pattern item with its character in lower case. *)
Definition lower_item (i : re_item) : re_item :=
  match i with
  | Lit c => Lit (to_lower c)
  | AnyChar => AnyChar
  end.

(** No two readings of one drive carry the same Date. *)
Definition distinct_dates (df : DataFrame) : Prop :=
  forall r r', In r df -> In r' df -> Drive r = Drive r' -> Date r = Date r' -> r = r'.

(** ** Sample readings

    Three readings of drive C: (days 1 and 3, the last day twice) and one
    of drive D:, used to run the definitions. *)

Definition ns_per_hour : Z := 3600 * 1000000000.

Definition sample_c1 : Reading :=
  {| Date := 1 * ns_per_day; Drive := "C:"; TotalSizeGB := 100;
     UsedSpaceGB := 40; FreeSpaceGB := 60; FreeSpacePercent := 60 |}.

Definition sample_c3 : Reading :=
  {| Date := 3 * ns_per_day; Drive := "C:"; TotalSizeGB := 100;
     UsedSpaceGB := 55; FreeSpaceGB := 45; FreeSpacePercent := 45 |}.

Definition sample_c3_late : Reading :=
  {| Date := 3 * ns_per_day + 5 * ns_per_hour; Drive := "C:"; TotalSizeGB := 100;
     UsedSpaceGB := 58; FreeSpaceGB := 42; FreeSpacePercent := 42 |}.

Definition sample_d2 : Reading :=
  {| Date := 2 * ns_per_day; Drive := "D:"; TotalSizeGB := 50;
     UsedSpaceGB := 46; FreeSpaceGB := 4; FreeSpacePercent := 8 |}.

Definition sample_df : DataFrame :=
  [sample_c3_late; sample_c3; sample_d2; sample_c1].

(** Two readings of drive C: taken on 1700-01-01 and on 2200-01-01, both
    within the range of [datetime64[ns]]. *)
Definition sample_1700 : Reading :=
  {| Date := -98615 * ns_per_day; Drive := "C:"; TotalSizeGB := 100;
     UsedSpaceGB := 10; FreeSpaceGB := 90; FreeSpacePercent := 90 |}.

Definition sample_2200 : Reading :=
  {| Date := 84006 * ns_per_day; Drive := "C:"; TotalSizeGB := 100;
     UsedSpaceGB := 70; FreeSpaceGB := 30; FreeSpacePercent := 30 |}.

Definition distant_df : DataFrame := [sample_2200; sample_1700].

(** ** Frames with missing values: [get_latest_stats]

    The warehouse table allows NULL cells, which reach the frame as
    [NaT], [None] and [NaN].  [Nullable] embeds [get_latest_stats] on such
    frames: [isin] is false on a missing drive, [groupby] drops the rows
    whose key is missing, [GroupBy.first()] takes, column by column, the
    first value of the group that is not missing, [sort_values] puts the
    missing dates last, [sum] and [mean] skip the missing values and a
    missing value is not below 10.  The definitions outside [Nullable]
    are these on frames whose cells are all present
    ([Nullable.of_reading]). *)

Module Nullable.

Record Reading := {
  Date : option Timestamp;
  Drive : option string;
  TotalSizeGB : option Q;
  UsedSpaceGB : option Q;
  FreeSpaceGB : option Q;
  FreeSpacePercent : option Q
}.

Definition DataFrame := list Reading.

(** [Series.dropna()]: the values that are present. *)
Definition valid {A : Type} (col : list (option A)) : list A :=
  flat_map (fun cell => match cell with Some v => [v] | None => [] end) col.

(** [Series.isin(values)] on the Drive column. *)
Definition isin (values : list string) (r : Reading) : bool :=
  match Drive r with
  | Some d => existsb (String.eqb d) values
  | None => false
  end.

(** [Series.sum()] and [Series.mean()], which skip the missing values;
    [None] stands for the NaN of a mean over no value. *)
Definition sum (col : list (option Q)) : Q := sum (valid col).

Definition mean (col : list (option Q)) : option Q := mean (valid col).

(** [a] may stand before [b] when sorting by Date, newest or oldest
    first: missing dates come last. *)
Definition newer_or_equal (a b : Reading) : Prop :=
  match Date a, Date b with
  | _, None => True
  | None, Some _ => False
  | Some t, Some u => u <= t
  end.

Definition older_or_equal (a b : Reading) : Prop :=
  match Date a, Date b with
  | _, None => True
  | None, Some _ => False
  | Some t, Some u => t <= u
  end.

(** [df.sort_values('Date', ascending=...)], with [na_position='last'];
    as outside, rows of equal date may come out in any order. *)
Class SortValues := {
  sort_values : bool -> DataFrame -> DataFrame;
  sort_values_perm :
    forall ascending df, Permutation df (sort_values ascending df);
  sort_values_ascending :
    forall df, StronglySorted older_or_equal (sort_values true df);
  sort_values_descending :
    forall df, StronglySorted newer_or_equal (sort_values false df)
}.

(** The group keys: the distinct drives that are present, ascending. *)
Definition group_keys (df : DataFrame) : list string :=
  DriveSort.sort (nodup string_dec (valid (map Drive df))).

(** The rows of one group, in the order of [df]. *)
Definition group (key : string) (df : DataFrame) : DataFrame :=
  filter (fun r => match Drive r with
                   | Some d => (d =? key)%string
                   | None => false
                   end) df.

(** The first value of a column that is present. *)
Fixpoint first_valid {A : Type} (col : list (option A)) : option A :=
  match col with
  | [] => None
  | Some v :: _ => Some v
  | None :: rest => first_valid rest
  end.

(** [df.groupby('Drive').first().reset_index()] *)
Definition groupby_first (df : DataFrame) : DataFrame :=
  map (fun key =>
         let rows := group key df in
         {| Date := first_valid (map Date rows);
            Drive := Some key;
            TotalSizeGB := first_valid (map TotalSizeGB rows);
            UsedSpaceGB := first_valid (map UsedSpaceGB rows);
            FreeSpaceGB := first_valid (map FreeSpaceGB rows);
            FreeSpacePercent := first_valid (map FreeSpacePercent rows) |})
      (group_keys df).

Record Stats := {
  total_size : Q;
  total_used : Q;
  total_free : Q;
  avg_free_percent : option Q;
  critical_drives : Z;
  latest_data : DataFrame
}.

Definition restrict (df : DataFrame) (selected_drives : option (list string))
  : DataFrame :=
  match selected_drives with
  | Some drives => if empty drives then df else filter (isin drives) df
  | None => df
  end.

(** [NaN < 10] is false. *)
Definition below_10 (r : Reading) : bool :=
  match FreeSpacePercent r with
  | Some p => Qltb p 10
  | None => false
  end.

Definition get_latest_stats `{SortValues}
    (df : DataFrame) (selected_drives : option (list string)) : option Stats :=
  if empty df then None
  else
    let df := restrict df selected_drives in
    if empty df then None
    else
      let latest := groupby_first (sort_values false df) in
      Some {|
        total_size := sum (map TotalSizeGB latest);
        total_used := sum (map UsedSpaceGB latest);
        total_free := sum (map FreeSpaceGB latest);
        avg_free_percent := mean (map FreeSpacePercent latest);
        critical_drives := len (filter below_10 latest);
        latest_data := latest
      |}.

(** *** Notions used in the statements *)

(** The rows the drive selection keeps: all of them when the selection is
    missing or empty, else those whose drive is present and selected. *)
Definition selected (selected_drives : option (list string)) (r : Reading) : Prop :=
  match selected_drives with
  | Some drives => drives = [] \/ exists d, Drive r = Some d /\ In d drives
  | None => True
  end.

Definition kept (df : DataFrame) (selected_drives : option (list string))
    (r : Reading) : Prop :=
  In r df /\ selected selected_drives r.





(** A cell in a sum: a missing value counts for nothing. *)
Definition present (cell : option Q) : Q :=
  match cell with
  | Some v => v
  | None => 0%Q
  end.

(** The sum of a column over rows, written as a mathematical sum. *)
Definition total (col : Reading -> option Q) (rows : DataFrame) : Q :=
  fold_right (fun r acc => present (col r) + acc)%Q 0%Q rows.


(** *** A sorting implementation *)

Definition date_leb (a b : Reading) : bool :=
  match Date a, Date b with
  | _, None => true
  | None, Some _ => false
  | Some t, Some u => t <=? u
  end.

Definition date_geb (a b : Reading) : bool :=
  match Date a, Date b with
  | _, None => true
  | None, Some _ => false
  | Some t, Some u => u <=? t
  end.

End Nullable.

Lemma nullable_date_leb_total (a b : Nullable.Reading) :
  Nullable.date_leb a b = true \/ Nullable.date_leb b a = true.
Proof.
  unfold Nullable.date_leb. destruct (Nullable.Date a), (Nullable.Date b); auto.
  rewrite !Z.leb_le. lia.
Qed.

Lemma nullable_date_geb_total (a b : Nullable.Reading) :
  Nullable.date_geb a b = true \/ Nullable.date_geb b a = true.
Proof.
  unfold Nullable.date_geb. destruct (Nullable.Date a), (Nullable.Date b); auto.
  rewrite !Z.leb_le. lia.
Qed.

Module NullableAscending <: TotalLeBool.
Definition t := Nullable.Reading.
Definition leb := Nullable.date_leb.
Definition leb_total := nullable_date_leb_total.
End NullableAscending.

Module NullableDescending <: TotalLeBool.
Definition t := Nullable.Reading.
Definition leb := Nullable.date_geb.
Definition leb_total := nullable_date_geb_total.
End NullableDescending.

Module NullableSortAscending := Sort NullableAscending.
Module NullableSortDescending := Sort NullableDescending.

Definition nullable_merge_sort_values (ascending : bool) (df : Nullable.DataFrame)
  : Nullable.DataFrame :=
  if ascending then NullableSortAscending.sort df else NullableSortDescending.sort df.

(** A reading of the frames without missing cells, as a row of
    [Nullable]. *)
Definition of_reading (r : Reading) : Nullable.Reading :=
  {| Nullable.Date := Some (Date r);
     Nullable.Drive := Some (Drive r);
     Nullable.TotalSizeGB := Some (TotalSizeGB r);
     Nullable.UsedSpaceGB := Some (UsedSpaceGB r);
     Nullable.FreeSpaceGB := Some (FreeSpaceGB r);
     Nullable.FreeSpacePercent := Some (FreeSpacePercent r) |}.

(** The statistics of the outer model, as statistics of [Nullable]. *)
Definition of_stats (st : Stats) : Nullable.Stats :=
  {| Nullable.total_size := total_size st;
     Nullable.total_used := total_used st;
     Nullable.total_free := total_free st;
     Nullable.avg_free_percent := avg_free_percent st;
     Nullable.critical_drives := critical_drives st;
     Nullable.latest_data := map of_reading (latest_data st) |}.

(** Sample rows with missing cells: the newest reading of C: lacks its
    UsedSpaceGB. *)
Definition nullable_c3 : Nullable.Reading :=
  {| Nullable.Date := Some (3 * ns_per_day); Nullable.Drive := Some "C:";
     Nullable.TotalSizeGB := Some 100%Q; Nullable.UsedSpaceGB := None;
     Nullable.FreeSpaceGB := Some 45%Q; Nullable.FreeSpacePercent := Some 45%Q |}.

Definition nullable_df : Nullable.DataFrame :=
  [nullable_c3; of_reading sample_d2; of_reading sample_c1].

(** ** A sorting implementation

    A merge sort on the Date column, as one implementation of
    [SortValues]. *)

Definition date_leb (a b : Reading) : bool := Date a <=? Date b.
Definition date_geb (a b : Reading) : bool := Date b <=? Date a.

Lemma date_leb_total (a b : Reading) : date_leb a b = true \/ date_leb b a = true.
Proof. unfold date_leb. rewrite !Z.leb_le. lia. Qed.

Lemma date_geb_total (a b : Reading) : date_geb a b = true \/ date_geb b a = true.
Proof. unfold date_geb. rewrite !Z.leb_le. lia. Qed.

Module DateAscending <: TotalLeBool.
Definition t := Reading.
Definition leb := date_leb.
Definition leb_total := date_leb_total.
End DateAscending.

Module DateDescending <: TotalLeBool.
Definition t := Reading.
Definition leb := date_geb.
Definition leb_total := date_geb_total.
End DateDescending.

Module SortAscending := Sort DateAscending.
Module SortDescending := Sort DateDescending.

Definition merge_sort_values (ascending : bool) (df : DataFrame) : DataFrame :=
  if ascending then SortAscending.sort df else SortDescending.sort df.

(** * Properties *)

Lemma StronglySorted_impl {A : Type} (R R' : A -> A -> Prop) (l : list A) :
  (forall a b, R a b -> R' a b) -> StronglySorted R l -> StronglySorted R' l.
Proof.
  intros HR. induction 1 as [|a l _ IH Hall]; constructor; auto.
  eapply Forall_impl; [|exact Hall]. auto.
Qed.

Lemma merge_sort_values_asc (df : DataFrame) :
  StronglySorted (fun a b => Date a <= Date b) (merge_sort_values true df).
Proof.
  apply StronglySorted_impl with (R := fun a b => is_true (DateAscending.leb a b)).
  - intros a b. unfold DateAscending.leb, date_leb, is_true. now rewrite Z.leb_le.
  - apply SortAscending.StronglySorted_sort.
    intros a b c. unfold DateAscending.leb, date_leb, is_true. rewrite !Z.leb_le. lia.
Qed.

Lemma merge_sort_values_desc (df : DataFrame) :
  StronglySorted (fun a b => Date b <= Date a) (merge_sort_values false df).
Proof.
  apply StronglySorted_impl with (R := fun a b => is_true (DateDescending.leb a b)).
  - intros a b. unfold DateDescending.leb, date_geb, is_true. now rewrite Z.leb_le.
  - apply SortDescending.StronglySorted_sort.
    intros a b c. unfold DateDescending.leb, date_geb, is_true. rewrite !Z.leb_le. lia.
Qed.

Lemma merge_sort_values_perm (ascending : bool) (df : DataFrame) :
  Permutation df (merge_sort_values ascending df).
Proof.
  destruct ascending; [apply SortAscending.Permuted_sort | apply SortDescending.Permuted_sort].
Qed.

#[export] Instance merge_sort : SortValues := {|
  sort_values := merge_sort_values;
  sort_values_perm := merge_sort_values_perm;
  sort_values_ascending := merge_sort_values_asc;
  sort_values_descending := merge_sort_values_desc
|}.

(** ** Facts about the comparison *)

Lemma Qltb_lt (x y : Q) : Qltb x y = true <-> (x < y)%Q.
Proof.
  unfold Qltb. rewrite negb_true_iff, <- not_true_iff_false, Qle_bool_iff.
  split; [apply Qnot_le_lt | apply Qlt_not_le].
Qed.

Lemma Qltb_ge (x y : Q) : Qltb x y = false <-> (y <= x)%Q.
Proof.
  unfold Qltb. rewrite negb_false_iff. apply Qle_bool_iff.
Qed.

Lemma Qltb_spec (x y : Q) : reflect (x < y)%Q (Qltb x y).
Proof.
  destruct (Qltb x y) eqn:E; constructor.
  - now apply Qltb_lt.
  - apply Qle_not_lt. now apply Qltb_ge.
Qed.

(** ** The severity bands *)

Ltac bands p :=
  unfold get_status_class, get_status_text, get_border_color;
  destruct (Qltb_spec p 5); [|destruct (Qltb_spec p 10); [|destruct (Qltb_spec p 20)]].

(** C1, as the spec words it, fails at the boundaries: at exactly 10 the
    classifier answers Warning, not Critical. *)
Lemma status_boundary_10_is_warning :
  get_status_text 10 = "Warning" /\ get_status_text 10 <> "Critical" /\
  get_status_class 10 = "status-warning" /\ get_status_class 10 <> "status-critical".
Proof.
  repeat split; try reflexivity; intros H; vm_compute in H; discriminate H.
Qed.

(** C1 (amended): the classification is a total, non-overlapping partition
    of the percentages (so of [0,100]) into the four bands Emergency
    (below 5), Critical (from 5, below 10), Warning (from 10, below 20) and
    Healthy (from 20); each boundary value belongs to the upper band:
    5 is Critical, 10 is Warning, 20 is Healthy. *)
Theorem status_partition_upper_band :
  (forall p : Q,
      (get_status_text p = "Emergency" <-> p < 5) /\
      (get_status_text p = "Critical" <-> 5 <= p < 10) /\
      (get_status_text p = "Warning" <-> 10 <= p < 20) /\
      (get_status_text p = "Healthy" <-> 20 <= p))%Q /\
  (forall p : Q,
      (get_status_class p = "status-emergency" <-> p < 5) /\
      (get_status_class p = "status-critical" <-> 5 <= p < 10) /\
      (get_status_class p = "status-warning" <-> 10 <= p < 20) /\
      (get_status_class p = "status-healthy" <-> 20 <= p))%Q /\
  (get_status_text 5 = "Critical" /\ get_status_text 10 = "Warning" /\
   get_status_text 20 = "Healthy") /\
  (get_status_class 5 = "status-critical" /\ get_status_class 10 = "status-warning" /\
   get_status_class 20 = "status-healthy").
Proof.
  split; [|split; [|split; repeat split; reflexivity]].
  - intros p. bands p; repeat split; intros; try discriminate; try reflexivity; lra.
  - intros p. bands p; repeat split; intros; try discriminate; try reflexivity; lra.
Qed.

(** C10: for every percentage the CSS class, the label and the border
    colour returned by the three classifiers are those of one and the same
    severity band, the band the percentage falls in. *)
Theorem classifiers_agree (free_percent : Q) :
  ((free_percent < 5)%Q /\
   get_status_class free_percent = "status-emergency" /\
   get_status_text free_percent = "Emergency" /\
   get_border_color free_percent = "#ff6b6b") \/
  ((5 <= free_percent < 10)%Q /\
   get_status_class free_percent = "status-critical" /\
   get_status_text free_percent = "Critical" /\
   get_border_color free_percent = "#ff8787") \/
  ((10 <= free_percent < 20)%Q /\
   get_status_class free_percent = "status-warning" /\
   get_status_text free_percent = "Warning" /\
   get_border_color free_percent = "#ffd43b") \/
  ((20 <= free_percent)%Q /\
   get_status_class free_percent = "status-healthy" /\
   get_status_text free_percent = "Healthy" /\
   get_border_color free_percent = "#51cf66").
Proof.
  bands free_percent.
  - left. auto.
  - right. left. repeat split; auto; lra.
  - right. right. left. repeat split; auto; lra.
  - right. right. right. repeat split; auto; lra.
Qed.

(** ** Dates *)

Lemma ns_per_day_pos : 0 < ns_per_day.
Proof. reflexivity. Qed.

Lemma date_of_mono (t u : Timestamp) : t <= u -> date_of t <= date_of u.
Proof. intros H. apply Z.div_le_mono; [exact ns_per_day_pos | exact H]. Qed.

Lemma col_min_spec (rest : list Z) (x : Z) :
  In (col_min x rest) (x :: rest) /\ forall y, In y (x :: rest) -> col_min x rest <= y.
Proof.
  unfold col_min. revert x. induction rest as [|z rest IH]; intros x; simpl.
  - split; [now left | intros y [<- | []]; lia].
  - destruct (IH (Z.min x z)) as [Hin Hle]. split.
    + destruct Hin as [Hin | Hin]; [|now right; right].
      rewrite <- Hin. destruct (Z.min_spec x z) as [[_ ->] | [_ ->]]; auto.
    + intros y Hy.
      assert (Hm : fold_left Z.min rest (Z.min x z) <= Z.min x z) by (apply Hle; now left).
      destruct Hy as [<- | [<- | Hy]]; [lia | lia | apply Hle; now right].
Qed.

Lemma col_max_spec (rest : list Z) (x : Z) :
  In (col_max x rest) (x :: rest) /\ forall y, In y (x :: rest) -> y <= col_max x rest.
Proof.
  unfold col_max. revert x. induction rest as [|z rest IH]; intros x; simpl.
  - split; [now left | intros y [<- | []]; lia].
  - destruct (IH (Z.max x z)) as [Hin Hle]. split.
    + destruct Hin as [Hin | Hin]; [|now right; right].
      rewrite <- Hin. destruct (Z.max_spec x z) as [[_ ->] | [_ ->]]; auto.
    + intros y Hy.
      assert (Hm : Z.max x z <= fold_left Z.max rest (Z.max x z)) by (apply Hle; now left).
      destruct Hy as [<- | [<- | Hy]]; [lia | lia | apply Hle; now right].
Qed.

(** C9: on an empty frame [get_date_range] answers (today, today); on any
    other frame it answers the calendar dates of the least and of the
    greatest Date of the frame; in both cases the first component is at
    most the second. *)
Theorem get_date_range_spec (today : date) (df : DataFrame) :
  (df = [] -> get_date_range today df = (today, today)) /\
  (df <> [] ->
   exists tmin tmax,
     In tmin (map Date df) /\ In tmax (map Date df) /\
     (forall r, In r df -> tmin <= Date r <= tmax) /\
     get_date_range today df = (date_of tmin, date_of tmax)) /\
  fst (get_date_range today df) <= snd (get_date_range today df).
Proof.
  unfold get_date_range. destruct df as [|r df]; simpl.
  - repeat split; [congruence | lia].
  - destruct (col_min_spec (map Date df) (Date r)) as [Hmin Hlo].
    destruct (col_max_spec (map Date df) (Date r)) as [Hmax Hhi].
    split; [discriminate|]. split.
    + intros _. exists (col_min (Date r) (map Date df)), (col_max (Date r) (map Date df)).
      repeat split; auto.
      * apply Hlo. destruct H as [<- | H]; [now left | right; now apply in_map].
      * apply Hhi. destruct H as [<- | H]; [now left | right; now apply in_map].
    + apply date_of_mono. transitivity (Date r); [apply Hlo | apply Hhi]; now left.
Qed.

Lemma get_date_range_spec_witness :
  let df := [ {| Date := 3 * ns_per_day + 5; Drive := "C:"; TotalSizeGB := 100;
                 UsedSpaceGB := 40; FreeSpaceGB := 60; FreeSpacePercent := 60 |};
              {| Date := 1 * ns_per_day + 7; Drive := "D:"; TotalSizeGB := 50;
                 UsedSpaceGB := 45; FreeSpaceGB := 5; FreeSpacePercent := 10 |} ] in
  get_date_range 9 [] = (9, 9) /\ get_date_range 9 df = (1, 3) /\
  fst (get_date_range 9 df) <= snd (get_date_range 9 df).
Proof.
  intros df. split; [|split].
  - apply (proj1 (get_date_range_spec 9 [])). reflexivity.
  - reflexivity.
  - apply (proj2 (proj2 (get_date_range_spec 9 df))).
Defined.

(** ** The date filter *)

Lemma isin_In (values : list string) (r : Reading) :
  isin values r = true <-> In (Drive r) values.
Proof.
  unfold isin. rewrite existsb_exists. split.
  - intros (d & Hd & Heq). apply String.eqb_eq in Heq. now subst d.
  - intros Hin. exists (Drive r). split; [exact Hin | apply String.eqb_refl].
Qed.

(** C4: the date filter keeps a row exactly when its calendar date lies
    between start_date and end_date, both ends included; the frame that
    [main] goes on with holds those rows, further narrowed to the selected
    drives when the selection is not empty. *)
Theorem date_filter_inclusive (df : DataFrame) (start_date end_date : date)
    (r : Reading) :
  (In r (date_filter df start_date end_date) <->
   In r df /\ start_date <= date_of (Date r) /\ date_of (Date r) <= end_date) /\
  (forall selected_drives,
     In r (filtered_df df start_date end_date selected_drives) <->
     In r df /\ start_date <= date_of (Date r) /\ date_of (Date r) <= end_date /\
     (selected_drives = [] \/ In (Drive r) selected_drives)).
Proof.
  assert (Hdate : In r (date_filter df start_date end_date) <->
                  In r df /\ start_date <= date_of (Date r) /\
                  date_of (Date r) <= end_date).
  { unfold date_filter, date_mask.
    rewrite filter_In, andb_true_iff, !Z.leb_le. reflexivity. }
  split; [exact Hdate|]. intros selected_drives. unfold filtered_df.
  destruct selected_drives as [|d ds]; simpl empty; cbv iota.
  - rewrite Hdate. intuition.
  - rewrite filter_In, isin_In, Hdate. intuition discriminate.
Qed.

(** Both ends are kept: a reading of the start day and one of the end day
    pass, the day before and the day after do not. *)
Example date_filter_ends :
  date_filter sample_df 2 3 = [sample_c3_late; sample_c3; sample_d2] /\
  date_filter sample_df 1 2 = [sample_d2; sample_c1].
Proof. split; reflexivity. Qed.

(** ** Grouping *)

Lemma group_keys_In (df : DataFrame) (key : string) :
  In key (group_keys df) <-> In key (map Drive df).
Proof.
  unfold group_keys. rewrite <- (nodup_In string_dec (map Drive df)).
  split; intros Hin.
  - eapply Permutation_in; [symmetry; apply DriveSort.Permuted_sort | exact Hin].
  - eapply Permutation_in; [apply DriveSort.Permuted_sort | exact Hin].
Qed.

Lemma group_keys_NoDup (df : DataFrame) : NoDup (group_keys df).
Proof.
  unfold group_keys. eapply Permutation_NoDup; [apply DriveSort.Permuted_sort|].
  apply NoDup_nodup.
Qed.

Lemma find_first {A : Type} (f : A -> bool) (l : list A) (a : A) :
  find f l = Some a ->
  exists l1 l2, l = l1 ++ a :: l2 /\ f a = true /\ forall x, In x l1 -> f x = false.
Proof.
  induction l as [|b l IH]; simpl; [discriminate|].
  destruct (f b) eqn:Eb.
  - intros [= <-]. exists [], l. repeat split; [exact Eb | intros x []].
  - intros Hf. destruct (IH Hf) as (l1 & l2 & -> & Ha & Hl1).
    exists (b :: l1), l2. repeat split; [exact Ha|].
    intros x [<- | Hx]; auto.
Qed.

Lemma find_drive_Some (df : DataFrame) (key : string) :
  In key (map Drive df) ->
  exists row, find (fun r => Drive r =? key)%string df = Some row.
Proof.
  intros Hin. destruct (find _ df) as [row|] eqn:E; [now exists row|].
  apply in_map_iff in Hin. destruct Hin as (r & <- & Hr).
  apply (find_none _ _ E) in Hr. now rewrite String.eqb_refl in Hr.
Qed.

Lemma flat_map_first_drives (df : DataFrame) (keys : list string) :
  (forall key, In key keys -> In key (map Drive df)) ->
  map Drive
      (flat_map (fun key =>
                   match find (fun r => Drive r =? key)%string df with
                   | Some row => [row]
                   | None => []
                   end) keys) = keys.
Proof.
  induction keys as [|key keys IH]; intros Hkeys; simpl; [reflexivity|].
  rewrite map_app, IH by (intros k Hk; apply Hkeys; now right).
  destruct (find_drive_Some df key) as [row Hrow]; [apply Hkeys; now left|].
  rewrite Hrow. simpl. f_equal.
  apply find_some in Hrow. now apply String.eqb_eq.
Qed.

Lemma groupby_first_drives (df : DataFrame) :
  map Drive (groupby_first df) = group_keys df.
Proof.
  apply flat_map_first_drives. intros key. apply group_keys_In.
Qed.

(** A row returned by [groupby_first] is the first of its drive. *)
Lemma groupby_first_In (df : DataFrame) (row : Reading) :
  In row (groupby_first df) ->
  exists l1 l2, df = l1 ++ row :: l2 /\ forall x, In x l1 -> Drive x <> Drive row.
Proof.
  unfold groupby_first. rewrite in_flat_map. intros (key & _ & Hrow).
  destruct (find _ df) as [row'|] eqn:E; [|destruct Hrow].
  destruct Hrow as [<- | []].
  destruct (find_first _ _ _ E) as (l1 & l2 & Hdf & Hkey & Hl1).
  exists l1, l2. split; [exact Hdf|]. intros x Hx Heq.
  apply Hl1 in Hx. apply String.eqb_eq in Hkey. rewrite Heq, Hkey in Hx.
  now rewrite String.eqb_refl in Hx.
Qed.

Lemma descending_after (l1 l2 : DataFrame) (row : Reading) :
  StronglySorted (fun a b => Date b <= Date a) (l1 ++ row :: l2) ->
  forall x, In x l2 -> Date x <= Date row.
Proof.
  induction l1 as [|a l1 IH]; simpl; intros Hs x Hx.
  - apply StronglySorted_inv in Hs. destruct Hs as [_ Hall].
    rewrite Forall_forall in Hall. now apply Hall.
  - apply StronglySorted_inv in Hs. destruct Hs as [Hs _]. now apply IH.
Qed.

(** ** [get_latest_stats] *)

Lemma restrict_nil (selected_drives : option (list string)) :
  restrict [] selected_drives = [].
Proof. destruct selected_drives as [[|d ds]|]; reflexivity. Qed.

Lemma empty_false {A : Type} (l : list A) : empty l = false <-> l <> [].
Proof. destruct l; simpl; split; congruence. Qed.

Lemma empty_true {A : Type} (l : list A) : empty l = true <-> l = [].
Proof. destruct l; simpl; split; congruence. Qed.

(** On rows that survive the restriction the function answers a record
    built from [groupby_first] of the rows sorted newest first. *)
Lemma get_latest_stats_Some `{SortValues} (df : DataFrame)
    (selected_drives : option (list string)) :
  restrict df selected_drives <> [] ->
  exists st,
    get_latest_stats df selected_drives = Some st /\
    latest_data st = groupby_first (sort_values false (restrict df selected_drives)) /\
    total_size st = sum (map TotalSizeGB (latest_data st)) /\
    total_used st = sum (map UsedSpaceGB (latest_data st)) /\
    total_free st = sum (map FreeSpaceGB (latest_data st)) /\
    avg_free_percent st = mean (map FreeSpacePercent (latest_data st)) /\
    critical_drives st =
      len (filter (fun r => Qltb (FreeSpacePercent r) 10) (latest_data st)).
Proof.
  intros Hne. unfold get_latest_stats.
  assert (Hdf : df <> []) by (intros ->; now rewrite restrict_nil in Hne).
  apply empty_false in Hdf. rewrite Hdf.
  apply empty_false in Hne. rewrite Hne.
  eexists. split; [reflexivity|]. simpl. repeat split.
Qed.

Lemma latest_rows_spec `{SortValues} (rows : DataFrame) :
  let latest := groupby_first (sort_values false rows) in
  NoDup (map Drive latest) /\
  (forall d, In d (map Drive latest) <-> In d (map Drive rows)) /\
  (forall r, In r latest ->
     In r rows /\
     forall r', In r' rows -> Drive r' = Drive r -> Date r' <= Date r).
Proof.
  intros latest. subst latest. rewrite groupby_first_drives.
  pose proof (sort_values_perm false rows) as Hperm.
  split; [apply group_keys_NoDup|]. split.
  - intros d. rewrite group_keys_In. split; intros Hd.
    + eapply Permutation_in; [symmetry; apply Permutation_map; exact Hperm | exact Hd].
    + eapply Permutation_in; [apply Permutation_map; exact Hperm | exact Hd].
  - intros r Hr. destruct (groupby_first_In _ _ Hr) as (l1 & l2 & Hsplit & Hl1).
    pose proof (sort_values_descending rows) as Hsorted. rewrite Hsplit in Hsorted.
    split.
    + eapply Permutation_in; [symmetry; exact Hperm|].
      rewrite Hsplit. apply in_or_app. right. now left.
    + intros r' Hr' Hdrive.
      apply (Permutation_in _ Hperm) in Hr'. rewrite Hsplit in Hr'.
      apply in_app_or in Hr'. destruct Hr' as [Hr' | [<- | Hr']].
      * now apply Hl1 in Hr'.
      * lia.
      * eapply descending_after; eassumption.
Qed.

Lemma latest_rows_nonempty `{SortValues} (rows : DataFrame) :
  rows <> [] -> groupby_first (sort_values false rows) <> [].
Proof.
  intros Hne Hnil. destruct (latest_rows_spec rows) as (_ & Hdrives & _).
  rewrite Hnil in Hdrives. destruct rows as [|r rs]; [congruence|].
  apply (Hdrives (Drive r)). now left.
Qed.

(** What it takes for the restriction to leave no rows: an empty frame,
    or a non-empty selection that matches none of its rows. *)
Lemma restrict_nil_iff (df : DataFrame) (selected_drives : option (list string)) :
  restrict df selected_drives = [] <->
  df = [] \/
  exists d ds, selected_drives = Some (d :: ds) /\ filter (isin (d :: ds)) df = [].
Proof.
  split.
  - intros Hr. destruct selected_drives as [[|d ds]|]; [now left | | now left].
    right. exists d, ds. split; [reflexivity | exact Hr].
  - intros [-> | (d & ds & -> & Hr)]; [apply restrict_nil | exact Hr].
Qed.

(** C8: [get_latest_stats] answers None exactly when the frame is empty or
    when restricting it to the selected drives leaves no rows, which takes
    a non-empty selection matching no row; in every other case it answers
    a stats record, whose latest_data is not empty. *)
Theorem get_latest_stats_None_iff `{SortValues} (df : DataFrame)
    (selected_drives : option (list string)) :
  (get_latest_stats df selected_drives = None <->
   df = [] \/ restrict df selected_drives = []) /\
  (get_latest_stats df selected_drives = None <->
   df = [] \/
   exists d ds, selected_drives = Some (d :: ds) /\ filter (isin (d :: ds)) df = []) /\
  (get_latest_stats df selected_drives <> None <->
   exists st, get_latest_stats df selected_drives = Some st /\ latest_data st <> []).
Proof.
  assert (Hnone : get_latest_stats df selected_drives = None <->
                  df = [] \/ restrict df selected_drives = []).
  { unfold get_latest_stats. destruct (empty df) eqn:Edf.
    - apply empty_true in Edf. tauto.
    - destruct (empty (restrict df selected_drives)) eqn:Er.
      + apply empty_true in Er. tauto.
      + apply empty_false in Edf, Er. split; [discriminate | tauto]. }
  split; [exact Hnone|]. split.
  - rewrite Hnone, restrict_nil_iff. tauto.
  - split.
    + intros Hsome.
      assert (Hr : restrict df selected_drives <> []) by tauto.
      destruct (get_latest_stats_Some df selected_drives Hr) as (st & Hst & Hlatest & _).
      exists st. split; [exact Hst|]. rewrite Hlatest.
      now apply latest_rows_nonempty.
    + intros (st & -> & _). discriminate.
Qed.

(** ** Sums over rows *)

Lemma fold_left_Qplus (col : list Q) (a : Q) :
  (fold_left Qplus col a == a + fold_right Qplus 0 col)%Q.
Proof.
  revert a. induction col as [|x col IH]; intros a; simpl.
  - ring.
  - rewrite IH. ring.
Qed.

Lemma sum_total (column : Reading -> Q) (rows : DataFrame) :
  (sum (map column rows) == total column rows)%Q.
Proof.
  unfold sum. rewrite fold_left_Qplus, Qplus_0_l.
  induction rows as [|r rows IH]; simpl; [reflexivity|]. now rewrite IH.
Qed.

Lemma total_Permutation (column : Reading -> Q) (rows rows' : DataFrame) :
  Permutation rows rows' -> (total column rows == total column rows')%Q.
Proof.
  induction 1 as [| r l l' _ IH | a b l | l l' l'' _ IH1 _ IH2]; simpl.
  - reflexivity.
  - now rewrite IH.
  - ring.
  - now rewrite IH1.
Qed.

Lemma len_Permutation {A : Type} (l l' : list A) :
  Permutation l l' -> len l = len l'.
Proof. intros Hp. unfold len. now rewrite (Permutation_length Hp). Qed.

(** On the sample the latest rows are the late day-3 reading of C: and
    the only reading of D:; a selection that matches no row gives None,
    an empty selection restricts nothing. *)
Example get_latest_stats_sample :
  get_latest_stats sample_df None
  = Some {| total_size := 150; total_used := 104; total_free := 46;
            avg_free_percent := Some (50 # 2); critical_drives := 1;
            latest_data := [sample_c3_late; sample_d2] |}.
Proof. vm_compute. reflexivity. Qed.

Example get_latest_stats_no_match :
  get_latest_stats sample_df (Some ["E:"]) = None.
Proof. vm_compute. reflexivity. Qed.

Example get_latest_stats_empty_selection :
  get_latest_stats sample_df (Some []) = get_latest_stats sample_df None.
Proof. vm_compute. reflexivity. Qed.

(** ** Frames with missing values *)

Lemma nullable_merge_sort_asc (df : Nullable.DataFrame) :
  StronglySorted Nullable.older_or_equal (nullable_merge_sort_values true df).
Proof.
  apply StronglySorted_impl with (R := fun a b => is_true (NullableAscending.leb a b)).
  - intros a b. unfold NullableAscending.leb, Nullable.date_leb, Nullable.older_or_equal, is_true.
    destruct (Nullable.Date a), (Nullable.Date b); try tauto; try discriminate.
    now rewrite Z.leb_le.
  - apply NullableSortAscending.StronglySorted_sort.
    intros a b c. unfold NullableAscending.leb, Nullable.date_leb, is_true.
    destruct (Nullable.Date a), (Nullable.Date b), (Nullable.Date c);
      try tauto; try discriminate.
    rewrite !Z.leb_le. lia.
Qed.

Lemma nullable_merge_sort_desc (df : Nullable.DataFrame) :
  StronglySorted Nullable.newer_or_equal (nullable_merge_sort_values false df).
Proof.
  apply StronglySorted_impl with (R := fun a b => is_true (NullableDescending.leb a b)).
  - intros a b. unfold NullableDescending.leb, Nullable.date_geb, Nullable.newer_or_equal, is_true.
    destruct (Nullable.Date a), (Nullable.Date b); try tauto; try discriminate.
    now rewrite Z.leb_le.
  - apply NullableSortDescending.StronglySorted_sort.
    intros a b c. unfold NullableDescending.leb, Nullable.date_geb, is_true.
    destruct (Nullable.Date a), (Nullable.Date b), (Nullable.Date c);
      try tauto; try discriminate.
    rewrite !Z.leb_le. lia.
Qed.

Lemma nullable_merge_sort_perm (ascending : bool) (df : Nullable.DataFrame) :
  Permutation df (nullable_merge_sort_values ascending df).
Proof.
  destruct ascending;
    [apply NullableSortAscending.Permuted_sort | apply NullableSortDescending.Permuted_sort].
Qed.

#[export] Instance nullable_merge_sort : Nullable.SortValues := {|
  Nullable.sort_values := nullable_merge_sort_values;
  Nullable.sort_values_perm := nullable_merge_sort_perm;
  Nullable.sort_values_ascending := nullable_merge_sort_asc;
  Nullable.sort_values_descending := nullable_merge_sort_desc
|}.








Section NullableFrames.

Import Nullable.

Context `{SortValues}.


















End NullableFrames.

(** *** Frames without missing cells

    On a frame whose cells are all present the functions of [Nullable]
    compute what the functions outside it compute. *)

Lemma valid_map_Some {A B : Type} (col : A -> B) (l : list A) :
  Nullable.valid (map (fun a => Some (col a)) l) = map col l.
Proof.
  induction l as [|a l IH]; simpl; [reflexivity | now rewrite IH].
Qed.

Lemma of_reading_group_keys (df : DataFrame) :
  Nullable.group_keys (map of_reading df) = group_keys df.
Proof.
  unfold Nullable.group_keys, group_keys. rewrite map_map.
  change (fun x => Nullable.Drive (of_reading x)) with (fun x => Some (Drive x)).
  now rewrite valid_map_Some.
Qed.

Lemma of_reading_group (key : string) (df : DataFrame) :
  Nullable.group key (map of_reading df)
  = map of_reading (filter (fun r => Drive r =? key)%string df).
Proof.
  unfold Nullable.group. induction df as [|r df IH]; simpl; [reflexivity|].
  destruct (Drive r =? key)%string; simpl; now rewrite IH.
Qed.

Lemma find_filter_head {A : Type} (f : A -> bool) (l : list A) (a : A) :
  find f l = Some a -> exists rest, filter f l = a :: rest.
Proof.
  induction l as [|b l IH]; simpl; [discriminate|].
  destruct (f b) eqn:E.
  - intros [= <-]. now exists (filter f l).
  - exact IH.
Qed.

(** [GroupBy.first()] on complete rows is the first row of each group. *)
Lemma of_reading_groupby_first (df : DataFrame) :
  Nullable.groupby_first (map of_reading df) = map of_reading (groupby_first df).
Proof.
  unfold Nullable.groupby_first, groupby_first. rewrite of_reading_group_keys.
  assert (Hkeys : forall key, In key (group_keys df) -> In key (map Drive df))
    by (intros key; apply group_keys_In).
  induction (group_keys df) as [|key keys IH]; [reflexivity|].
  cbn [map flat_map]. rewrite map_app, <- IH by (intros k Hk; apply Hkeys; now right).
  destruct (find_drive_Some df key (Hkeys key (or_introl eq_refl))) as [row Hrow].
  rewrite Hrow. destruct (find_filter_head _ _ _ Hrow) as [rest Hfilter].
  apply find_some in Hrow. destruct Hrow as [_ Hkey]. apply String.eqb_eq in Hkey.
  rewrite of_reading_group, Hfilter. simpl. f_equal.
  unfold of_reading. now rewrite Hkey.
Qed.

Lemma of_reading_restrict (df : DataFrame) (selected_drives : option (list string)) :
  Nullable.restrict (map of_reading df) selected_drives
  = map of_reading (restrict df selected_drives).
Proof.
  unfold Nullable.restrict, restrict. destruct selected_drives as [drives|]; [|reflexivity].
  destruct (empty drives); [reflexivity|].
  induction df as [|r df IH]; simpl; [reflexivity|].
  change (Nullable.isin drives (of_reading r)) with (isin drives r).
  destruct (isin drives r); simpl; now rewrite IH.
Qed.

Lemma of_reading_below_10 (rows : DataFrame) :
  len (filter Nullable.below_10 (map of_reading rows))
  = len (filter (fun r => Qltb (FreeSpacePercent r) 10) rows).
Proof.
  unfold len. f_equal. f_equal. induction rows as [|r rows IH]; simpl; [reflexivity|].
  change (Nullable.below_10 (of_reading r)) with (Qltb (FreeSpacePercent r) 10).
  destruct (Qltb (FreeSpacePercent r) 10); simpl; now rewrite IH.
Qed.

(** Whenever the two sorts agree on a frame without missing cells,
    [get_latest_stats] outside [Nullable] is [Nullable.get_latest_stats]
    on that frame. *)
Lemma get_latest_stats_of_reading (S : SortValues) (SN : Nullable.SortValues)
    (df : DataFrame) (selected_drives : option (list string)) :
  @Nullable.sort_values SN false (map of_reading (restrict df selected_drives))
  = map of_reading (@sort_values S false (restrict df selected_drives)) ->
  @Nullable.get_latest_stats SN (map of_reading df) selected_drives
  = option_map of_stats (@get_latest_stats S df selected_drives).
Proof.
  intros Hsort. unfold Nullable.get_latest_stats, get_latest_stats.
  assert (Hempty : forall l : DataFrame, empty (map of_reading l) = empty l)
    by (intros [|a l]; reflexivity).
  rewrite of_reading_restrict, !Hempty.
  destruct (empty df); [reflexivity|].
  destruct (empty (restrict df selected_drives)); [reflexivity|].
  rewrite Hsort, of_reading_groupby_first. simpl option_map. unfold of_stats.
  cbn [total_size total_used total_free avg_free_percent critical_drives latest_data].
  unfold Nullable.sum, Nullable.mean. rewrite !map_map.
  change (fun x => Nullable.TotalSizeGB (of_reading x)) with (fun x => Some (TotalSizeGB x)).
  change (fun x => Nullable.UsedSpaceGB (of_reading x)) with (fun x => Some (UsedSpaceGB x)).
  change (fun x => Nullable.FreeSpaceGB (of_reading x)) with (fun x => Some (FreeSpaceGB x)).
  change (fun x => Nullable.FreeSpacePercent (of_reading x))
    with (fun x => Some (FreeSpacePercent x)).
  now rewrite !valid_map_Some, of_reading_below_10.
Qed.

(** The two merge sorts agree on the sample, and so do the statistics. *)
Example get_latest_stats_of_reading_sample :
  Nullable.get_latest_stats (map of_reading sample_df) (Some ["C:"])
  = option_map of_stats (get_latest_stats sample_df (Some ["C:"])).
Proof.
  apply (get_latest_stats_of_reading merge_sort nullable_merge_sort).
  vm_compute. reflexivity.
Qed.




(** Only the selected drive is counted, and a missing value is filled
    from the drive's older readings: with every drive selected the used
    space of C: is the 40 GB of its older reading. *)
Example nullable_get_latest_stats_sample :
  option_map (fun st => (Nullable.total_size st, Nullable.total_used st,
                         map Nullable.Drive (Nullable.latest_data st)))
             (Nullable.get_latest_stats nullable_df (Some ["D:"]))
  = Some (50, 46, [Some "D:"])%Q /\
  option_map (fun st => (Nullable.total_size st, Nullable.total_used st,
                         map Nullable.Drive (Nullable.latest_data st)))
             (Nullable.get_latest_stats nullable_df None)
  = Some (150, 86, [Some "C:"; Some "D:"])%Q.
Proof. split; vm_compute; reflexivity. Qed.

(** ** Growth analysis *)

Lemma nth_error_last (df : DataFrame) (d : Reading) :
  df <> [] -> nth_error df (List.length df - 1) = Some (last df d).
Proof.
  induction df as [|x df IH]; [congruence|]. intros _.
  destruct df as [|y df]; [reflexivity|].
  replace (List.length (x :: y :: df) - 1)%nat
    with (S (List.length (y :: df) - 1))%nat by (simpl; lia).
  change (nth_error (y :: df) (List.length (y :: df) - 1) = Some (last (y :: df) d)).
  apply IH. discriminate.
Qed.

Lemma iloc_first (x : Reading) (l : DataFrame) : iloc (x :: l) 0 = inl x.
Proof.
  unfold iloc, len. cbv zeta. change (0 <? 0) with false. cbv iota.
  replace ((0 <=? 0) && (0 <? Z.of_nat (List.length (x :: l)))) with true.
  - reflexivity.
  - symmetry. apply andb_true_iff. split; [reflexivity|].
    apply Z.ltb_lt. simpl List.length. lia.
Qed.

Lemma iloc_last (x : Reading) (l : DataFrame) :
  iloc (x :: l) (-1) = inl (last (x :: l) x).
Proof.
  unfold iloc, len. cbv zeta. change (-1 <? 0) with true. cbv iota.
  set (n := List.length (x :: l)).
  assert (Hn : (1 <= n)%nat) by (subst n; simpl; lia).
  replace ((0 <=? Z.of_nat n + -1) && (Z.of_nat n + -1 <? Z.of_nat n)) with true
    by (symmetry; apply andb_true_iff; split; [apply Z.leb_le | apply Z.ltb_lt]; lia).
  replace (Z.to_nat (Z.of_nat n + -1)) with (n - 1)%nat by lia.
  subst n. rewrite (nth_error_last (x :: l) x) by discriminate. reflexivity.
Qed.

Lemma int64_max_pos : 0 < int64_max.
Proof. reflexivity. Qed.

Example int64_max_value : int64_max = 9223372036854775807.
Proof. reflexivity. Qed.

(** A difference of timestamps that is not negative: it is returned when
    it fits, and the subtraction raises otherwise. *)
Lemma timestamp_sub_cases (t u : Timestamp) :
  u <= t ->
  timestamp_sub t u
  = if t - u <=? int64_max then inl (t - u) else inr OutOfBoundsDatetime.
Proof.
  intros Hle. unfold timestamp_sub. cbv zeta. pose proof int64_max_pos.
  replace (- int64_max <=? t - u) with true by (symmetry; apply Z.leb_le; lia).
  reflexivity.
Qed.

Lemma growth_row_cases (drive : string) (x : Reading) (l : DataFrame) :
  Date x <= Date (last (x :: l) x) ->
  growth_row drive (x :: l)
  = if Date (last (x :: l) x) - Date x <=? int64_max
    then inl (growth_row_of drive x (last (x :: l) x))
    else inr OutOfBoundsDatetime.
Proof.
  intros Hle. unfold growth_row. rewrite iloc_first, iloc_last. unfold bind at 1 2.
  rewrite (timestamp_sub_cases _ _ Hle).
  destruct (Date (last (x :: l) x) - Date x <=? int64_max); [|reflexivity].
  unfold bind, growth_row_of.
  destruct (0 <? days (Date (last (x :: l) x) - Date x)) eqn:E; [|reflexivity].
  unfold truediv. apply Z.ltb_lt in E.
  destruct (days (Date (last (x :: l) x) - Date x) =? 0) eqn:E0; [|reflexivity].
  apply Z.eqb_eq in E0. lia.
Qed.

Lemma len_ge_2_cons {A : Type} (l : list A) :
  2 <= len l -> exists x l', l = x :: l'.
Proof.
  destruct l as [|x l']; unfold len; simpl; [lia | eauto].
Qed.

Lemma len_drive_rows `{SortValues} (filtered : DataFrame) (drive : string) :
  len (drive_rows filtered drive) =
  len (filter (fun r => Drive r =? drive)%string filtered).
Proof.
  unfold drive_rows. symmetry. apply len_Permutation, sort_values_perm.
Qed.

Lemma last_In {A : Type} (l : list A) (d : A) : l <> [] -> In (last l d) l.
Proof.
  induction l as [|x l IH]; [congruence|]. intros _.
  destruct l as [|y l]; [now left|].
  right. change (In (last (y :: l) d) (y :: l)). apply IH. discriminate.
Qed.

Lemma ascending_first_le_last (x : Reading) (l : DataFrame) :
  StronglySorted (fun a b => Date a <= Date b) (x :: l) ->
  Date x <= Date (last (x :: l) x).
Proof.
  intros Hs. apply StronglySorted_inv in Hs. destruct Hs as [_ Hall].
  rewrite Forall_forall in Hall.
  destruct (last_In (x :: l) x ltac:(discriminate)) as [<- | Hin]; [lia | now apply Hall].
Qed.

Lemma last_default {A : Type} (l : list A) (d d' : A) :
  l <> [] -> last l d = last l d'.
Proof.
  induction l as [|x l IH]; [congruence|]. intros _.
  destruct l as [|y l]; [reflexivity|].
  change (last (y :: l) d = last (y :: l) d'). apply IH. discriminate.
Qed.

(** In an ascending list every row lies between the first and the last. *)
Lemma ascending_between (x : Reading) (l : DataFrame) :
  StronglySorted (fun a b => Date a <= Date b) (x :: l) ->
  forall r, In r (x :: l) -> Date x <= Date r <= Date (last (x :: l) x).
Proof.
  revert x. induction l as [|y l IH]; intros x Hs r Hr.
  - destruct Hr as [<- | []]. simpl. lia.
  - apply StronglySorted_inv in Hs. destruct Hs as [Hs Hall].
    rewrite Forall_forall in Hall.
    change (last (x :: y :: l) x) with (last (y :: l) x).
    rewrite (last_default (y :: l) x y) by discriminate.
    destruct Hr as [<- | Hr].
    + split; [lia|]. apply Hall. apply last_In. discriminate.
    + specialize (IH y Hs r Hr). specialize (Hall r Hr). lia.
Qed.

Lemma drive_rows_In `{SortValues} (filtered : DataFrame) (drive : string) (r : Reading) :
  In r (drive_rows filtered drive) <-> In r filtered /\ Drive r = drive.
Proof.
  unfold drive_rows. rewrite <- (String.eqb_eq (Drive r) drive).
  rewrite <- (filter_In (fun r => Drive r =? drive)%string).
  split; intros Hr.
  - eapply Permutation_in; [symmetry; apply sort_values_perm | exact Hr].
  - eapply Permutation_in; [apply sort_values_perm | exact Hr].
Qed.

(** What the loop comes to: it stops at the first selected drive whose
    first and last readings are too far apart, and otherwise appends the
    rows of [growth_rows_of]. *)
Lemma growth_loop_cases `{SortValues} (filtered : DataFrame) (drives : list string) :
  forall acc,
    growth_loop drives filtered acc
    = if existsb (overflows filtered) drives then inr OutOfBoundsDatetime
      else inl (acc ++ growth_rows_of filtered drives).
Proof.
  induction drives as [|drive drives IH]; intros acc.
  - simpl. now rewrite app_nil_r.
  - cbn [growth_loop existsb]. unfold growth_rows_of. cbn [flat_map].
    fold (growth_rows_of filtered drives). unfold overflows at 1.
    pose proof (sort_values_ascending (filter (fun r => Drive r =? drive)%string filtered))
      as Hsorted.
    fold (drive_rows filtered drive) in Hsorted.
    destruct (drive_rows filtered drive) as [|x l] eqn:Hrows.
    + change (2 <=? len (@nil Reading)) with false. cbv iota. simpl. apply IH.
    + destruct (2 <=? len (x :: l)); [|simpl; apply IH].
      rewrite (growth_row_cases drive x l (ascending_first_le_last x l Hsorted)).
      destruct (Date (last (x :: l) x) - Date x <=? int64_max); simpl; [|reflexivity].
      rewrite IH. destruct (existsb (overflows filtered) drives); [reflexivity|].
      now rewrite <- app_assoc.
Qed.

Lemma overflows_iff `{SortValues} (filtered : DataFrame) (drives : list string) :
  existsb (overflows filtered) drives = true <->
  exists d r r',
    In d drives /\ In r filtered /\ In r' filtered /\
    Drive r = d /\ Drive r' = d /\ int64_max < Date r' - Date r.
Proof.
  rewrite existsb_exists. split.
  - intros (d & Hd & Hover). unfold overflows in Hover.
    destruct (drive_rows filtered d) as [|x l] eqn:Hrows; [discriminate|].
    apply andb_true_iff in Hover. destruct Hover as [_ Hover].
    apply negb_true_iff, Z.leb_gt in Hover.
    assert (Hx : In x (drive_rows filtered d)) by (rewrite Hrows; now left).
    assert (Hl : In (last (x :: l) x) (drive_rows filtered d))
      by (rewrite Hrows; apply last_In; discriminate).
    apply drive_rows_In in Hx, Hl.
    exists d, x, (last (x :: l) x). tauto.
  - intros (d & r & r' & Hd & Hr & Hr' & Hdr & Hdr' & Hfar).
    exists d. split; [exact Hd|]. unfold overflows.
    assert (Hin : In r (drive_rows filtered d)) by (apply drive_rows_In; tauto).
    assert (Hin' : In r' (drive_rows filtered d)) by (apply drive_rows_In; tauto).
    pose proof (sort_values_ascending (filter (fun r => Drive r =? d)%string filtered))
      as Hsorted.
    fold (drive_rows filtered d) in Hsorted.
    destruct (drive_rows filtered d) as [|x l]; [destruct Hin|].
    pose proof (ascending_between x l Hsorted r Hin) as Hb.
    pose proof (ascending_between x l Hsorted r' Hin') as Hb'.
    pose proof int64_max_pos.
    apply andb_true_iff. split.
    + destruct l as [|y l]; [simpl in Hb, Hb'; lia|].
      unfold len. simpl List.length. apply Z.leb_le. lia.
    + apply negb_true_iff, Z.leb_gt. lia.
Qed.

Lemma no_overflow_iff `{SortValues} (filtered : DataFrame) (drives : list string) :
  existsb (overflows filtered) drives = false <-> no_overflow filtered drives.
Proof.
  rewrite <- not_true_iff_false, overflows_iff. unfold no_overflow. split.
  - intros Hnone d r r' Hd Hr Hr' Hdr Hdr'.
    destruct (Z_le_gt_dec (Date r' - Date r) int64_max) as [Hle | Hgt]; [exact Hle|].
    exfalso. apply Hnone. exists d, r, r'. repeat split; auto. lia.
  - intros Hfit (d & r & r' & Hd & Hr & Hr' & Hdr & Hdr' & Hfar).
    specialize (Hfit d r r' Hd Hr Hr' Hdr Hdr'). lia.
Qed.

Lemma growth_rows_of_In `{SortValues} (filtered : DataFrame) (drives : list string)
    (row : GrowthRow) :
  In row (growth_rows_of filtered drives) ->
  exists first rest,
    drive_rows filtered (growth_drive row) = first :: rest /\
    row = growth_row_of (growth_drive row) first (last (first :: rest) first).
Proof.
  unfold growth_rows_of. rewrite in_flat_map. intros (d & _ & Hrow).
  destruct (drive_rows filtered d) as [|x l] eqn:Hrows; [destruct Hrow|].
  destruct (2 <=? len (x :: l)); [|destruct Hrow].
  destruct Hrow as [<- | []]. simpl growth_drive. now exists x, l.
Qed.

Lemma growth_rows_of_drives `{SortValues} (filtered : DataFrame) (drives : list string) :
  map growth_drive (growth_rows_of filtered drives)
  = filter (fun d => 2 <=? len (filter (fun r => Drive r =? d)%string filtered)) drives.
Proof.
  induction drives as [|d drives IH]; [reflexivity|].
  unfold growth_rows_of in *. cbn [flat_map]. rewrite map_app, IH. cbn [filter].
  rewrite <- (len_drive_rows filtered d).
  destruct (drive_rows filtered d) as [|x l]; [reflexivity|].
  destruct (2 <=? len (x :: l)); reflexivity.
Qed.

(** The row of a drive with at least two readings, and the sorted readings
    it is computed from. *)
Lemma growth_rows_of_drive `{SortValues} (filtered : DataFrame) (drives : list string)
    (drive : string) :
  In drive drives ->
  2 <= len (filter (fun r => Drive r =? drive)%string filtered) ->
  exists first rest,
    drive_rows filtered drive = first :: rest /\
    Permutation (first :: rest) (filter (fun r => Drive r =? drive)%string filtered) /\
    StronglySorted (fun a b => Date a <= Date b) (first :: rest) /\
    (forall r, In r filtered -> Drive r = drive ->
               Date first <= Date r <= Date (last (first :: rest) first)) /\
    In (growth_row_of drive first (last (first :: rest) first))
       (growth_rows_of filtered drives).
Proof.
  intros Hd Hlen. rewrite <- len_drive_rows in Hlen.
  destruct (len_ge_2_cons _ Hlen) as (x & l & Hrows).
  pose proof (sort_values_ascending (filter (fun r => Drive r =? drive)%string filtered))
    as Hsorted.
  pose proof (sort_values_perm true (filter (fun r => Drive r =? drive)%string filtered))
    as Hperm.
  fold (drive_rows filtered drive) in Hsorted, Hperm. rewrite Hrows in Hsorted, Hperm.
  exists x, l. split; [exact Hrows|]. split; [now symmetry|]. split; [exact Hsorted|].
  split.
  - intros r Hr Hdr. apply ascending_between; [exact Hsorted|].
    rewrite <- Hrows. apply drive_rows_In. tauto.
  - unfold growth_rows_of. apply in_flat_map. exists drive. split; [exact Hd|].
    rewrite Hrows in *. apply Z.leb_le in Hlen. rewrite Hlen. now left.
Qed.

(** C5, as the spec words it, fails: two readings of a drive more than
    2^63 - 1 ns apart (here 1700-01-01 and 2200-01-01) stop the analysis on
    the difference of their timestamps, and no growth row is produced
    although the drive has two readings in the frame. *)
Lemma growth_stops_on_distant_dates :
  len (filter (fun r => Drive r =? "C:")%string distant_df) = 2 /\
  growth_analysis ["C:"] distant_df = inr OutOfBoundsDatetime /\
  ~ exists growth_data, growth_analysis ["C:"] distant_df = inl growth_data.
Proof.
  split; [reflexivity|]. split; [vm_compute; reflexivity|].
  intros (growth_data & Hrows). vm_compute in Hrows. discriminate Hrows.
Qed.

(** C5 (amended): when no two readings of a selected drive lie further
    apart than a Timedelta holds, the growth analysis returns its rows;
    every selected drive with at least two readings in the filtered frame
    has a row whose Growth is the UsedSpaceGB of the last minus that of
    the first of its readings sorted by ascending Date (readings of least
    and of greatest Date); a drive with fewer than two readings (so with
    exactly one) has no row. *)
Theorem growth_last_minus_first `{SortValues} (filtered : DataFrame)
    (selected_drives : list string) (drive : string) :
  In drive selected_drives ->
  no_overflow filtered selected_drives ->
  exists growth_data,
    growth_analysis selected_drives filtered = inl growth_data /\
    (2 <= len (filter (fun r => Drive r =? drive)%string filtered) ->
     exists first rest row,
       drive_rows filtered drive = first :: rest /\
       Permutation (first :: rest)
                   (filter (fun r => Drive r =? drive)%string filtered) /\
       StronglySorted (fun a b => Date a <= Date b) (first :: rest) /\
       (forall r, In r filtered -> Drive r = drive ->
                  Date first <= Date r <= Date (last (first :: rest) first)) /\
       In row growth_data /\ growth_drive row = drive /\
       (Growth row ==
        UsedSpaceGB (last (first :: rest) first) - UsedSpaceGB first)%Q) /\
    (len (filter (fun r => Drive r =? drive)%string filtered) < 2 ->
     forall row, In row growth_data -> growth_drive row <> drive).
Proof.
  intros Hsel Hfit. unfold growth_analysis. rewrite growth_loop_cases.
  apply no_overflow_iff in Hfit. rewrite Hfit. simpl app.
  exists (growth_rows_of filtered selected_drives). split; [reflexivity|]. split.
  - intros Hlen.
    destruct (growth_rows_of_drive filtered selected_drives drive Hsel Hlen)
      as (first & rest & Hrows & Hperm & Hsorted & Hbetween & Hrow).
    exists first, rest, (growth_row_of drive first (last (first :: rest) first)).
    repeat (split; [assumption|]). split; reflexivity.
  - intros Hlen row Hrow Hdrive.
    assert (Hin : In (growth_drive row) (map growth_drive (growth_rows_of filtered selected_drives)))
      by now apply in_map.
    rewrite growth_rows_of_drives in Hin. apply filter_In in Hin.
    destruct Hin as [_ Hge]. rewrite Hdrive in Hge. apply Z.leb_le in Hge. lia.
Qed.

Lemma sample_no_overflow : no_overflow sample_df ["C:"; "D:"].
Proof.
  apply no_overflow_iff. vm_compute. reflexivity.
Defined.

Lemma growth_last_minus_first_witness :
  exists growth_data,
    growth_analysis ["C:"; "D:"] sample_df = inl growth_data /\
    (2 <= len (filter (fun r => Drive r =? "C:")%string sample_df) ->
     exists first rest row,
       drive_rows sample_df "C:" = first :: rest /\
       Permutation (first :: rest)
                   (filter (fun r => Drive r =? "C:")%string sample_df) /\
       StronglySorted (fun a b => Date a <= Date b) (first :: rest) /\
       (forall r, In r sample_df -> Drive r = "C:" ->
                  Date first <= Date r <= Date (last (first :: rest) first)) /\
       In row growth_data /\ growth_drive row = "C:" /\
       (Growth row ==
        UsedSpaceGB (last (first :: rest) first) - UsedSpaceGB first)%Q) /\
    (len (filter (fun r => Drive r =? "C:")%string sample_df) < 2 ->
     forall row, In row growth_data -> growth_drive row <> "C:").
Proof.
  apply (growth_last_minus_first sample_df ["C:"; "D:"] "C:").
  - simpl. left. reflexivity.
  - exact sample_no_overflow.
Defined.

(** On the sample, drive C: grows by 58 - 40 = 18 GB over two whole days
    and drive D:, read once, has no row. *)
Example growth_analysis_sample :
  growth_analysis ["C:"; "D:"] sample_df
  = inl [ {| growth_drive := "C:"; Initial := 40; Current := 58;
             Growth := 18; AvgDailyGrowth := 18 # 2 |} ].
Proof. vm_compute. reflexivity. Qed.

Lemma days_nonneg (delta : Z) : 0 <= delta -> 0 <= days delta.
Proof. intros H. apply Z.div_pos; [exact H | exact ns_per_day_pos]. Qed.

(** The whole days of a difference: the number of full days it holds. *)
Lemma days_bounds (delta : Z) :
  days delta * ns_per_day <= delta < (days delta + 1) * ns_per_day.
Proof.
  unfold days. pose proof ns_per_day_pos as Hpos.
  pose proof (Z.div_mod delta ns_per_day ltac:(lia)) as Hdm.
  pose proof (Z.mod_pos_bound delta ns_per_day Hpos). lia.
Qed.

Lemma same_date_days_zero (t u : Timestamp) :
  t <= u -> date_of t = date_of u -> days (u - t) = 0.
Proof.
  unfold date_of, days. intros Hle Heq. pose proof ns_per_day_pos as Hpos.
  apply Z.div_small.
  pose proof (Z.div_mod t ns_per_day ltac:(lia)) as Ht.
  pose proof (Z.div_mod u ns_per_day ltac:(lia)) as Hu.
  pose proof (Z.mod_pos_bound t ns_per_day Hpos).
  pose proof (Z.mod_pos_bound u ns_per_day Hpos).
  rewrite Heq in Ht. lia.
Qed.

(** C6: the growth analysis never divides by zero (it never ends in a
    ZeroDivisionError) and returns its rows whenever no two readings of a
    selected drive lie further apart than a Timedelta holds.  In the rows
    it returns, every selected drive with at least two readings has a row
    whose average daily growth is the growth divided by the whole days
    elapsed between the drive's first and last reading by Date (the
    number of full days their difference holds) when that number is
    positive, and zero when it is zero, in particular when both readings
    fall on the same calendar day. *)
Theorem average_daily_growth_spec `{SortValues} (filtered : DataFrame)
    (selected_drives : list string) :
  growth_analysis selected_drives filtered <> inr ZeroDivisionError /\
  (no_overflow filtered selected_drives ->
   exists growth_data, growth_analysis selected_drives filtered = inl growth_data) /\
  forall growth_data,
    growth_analysis selected_drives filtered = inl growth_data ->
    forall drive,
      In drive selected_drives ->
      2 <= len (filter (fun r => Drive r =? drive)%string filtered) ->
      exists first rest row elapsed,
        drive_rows filtered drive = first :: rest /\
        Permutation (first :: rest)
                    (filter (fun r => Drive r =? drive)%string filtered) /\
        StronglySorted (fun a b => Date a <= Date b) (first :: rest) /\
        In row growth_data /\ growth_drive row = drive /\
        (Growth row ==
         UsedSpaceGB (last (first :: rest) first) - UsedSpaceGB first)%Q /\
        0 <= elapsed /\
        elapsed * ns_per_day
          <= Date (last (first :: rest) first) - Date first
          < (elapsed + 1) * ns_per_day /\
        (0 < elapsed -> (AvgDailyGrowth row == Growth row / inject_Z elapsed)%Q) /\
        (elapsed = 0 -> (AvgDailyGrowth row == 0)%Q) /\
        (date_of (Date first) = date_of (Date (last (first :: rest) first)) ->
         elapsed = 0 /\ (AvgDailyGrowth row == 0)%Q).
Proof.
  unfold growth_analysis. rewrite growth_loop_cases. simpl app.
  split; [destruct (existsb (overflows filtered) selected_drives); discriminate|].
  split.
  - intros Hfit. apply no_overflow_iff in Hfit. rewrite Hfit. eauto.
  - intros growth_data Hdata drive Hsel Hlen.
    destruct (existsb (overflows filtered) selected_drives); [discriminate|].
    injection Hdata as <-.
    destruct (growth_rows_of_drive filtered selected_drives drive Hsel Hlen)
      as (first & rest & Hrows & Hperm & Hsorted & _ & Hrow).
    exists first, rest, (growth_row_of drive first (last (first :: rest) first)),
      (days (Date (last (first :: rest) first) - Date first)).
    repeat (split; [assumption|]). split; [reflexivity|]. split; [reflexivity|].
    pose proof (ascending_first_le_last first rest Hsorted) as Hle.
    unfold growth_row_of. cbn [AvgDailyGrowth Growth].
    set (elapsed := days (Date (last (first :: rest) first) - Date first)).
    assert (Hzero : elapsed = 0 ->
                    ((if 0 <? elapsed
                      then (UsedSpaceGB (last (first :: rest) first) - UsedSpaceGB first)
                           / inject_Z elapsed
                      else 0) == 0)%Q).
    { intros ->. reflexivity. }
    split; [apply days_nonneg; lia|]. split; [apply days_bounds|]. split; [|split].
    + intros Hpos. apply Z.ltb_lt in Hpos. rewrite Hpos. reflexivity.
    + exact Hzero.
    + intros Hsame. assert (H0 : elapsed = 0) by (now apply same_date_days_zero).
      split; [exact H0 | now apply Hzero].
Qed.

Lemma average_daily_growth_spec_witness :
  exists growth_data first rest row elapsed,
    growth_analysis ["C:"; "D:"] sample_df = inl growth_data /\
    drive_rows sample_df "C:" = first :: rest /\
    In row growth_data /\ growth_drive row = "C:" /\
    elapsed * ns_per_day
      <= Date (last (first :: rest) first) - Date first
      < (elapsed + 1) * ns_per_day /\
    (0 < elapsed -> (AvgDailyGrowth row == Growth row / inject_Z elapsed)%Q).
Proof.
  destruct (average_daily_growth_spec sample_df ["C:"; "D:"]) as (_ & Hreturns & Hrows).
  destruct (Hreturns sample_no_overflow) as (growth_data & Hdata).
  destruct (Hrows growth_data Hdata "C:") as (first & rest & row & elapsed & H1 & _ & _ & H4 & H5 & _ & _ & H8 & H9 & _).
  - simpl. left. reflexivity.
  - vm_compute. discriminate.
  - exists growth_data, first, rest, row, elapsed. tauto.
Defined.

(** Two readings of one drive on the same day: the elapsed whole days are
    zero and the average daily growth is reported as zero. *)
Example growth_analysis_same_day :
  growth_analysis ["C:"] [sample_c3_late; sample_c3]
  = inl [ {| growth_drive := "C:"; Initial := 55; Current := 58;
             Growth := 3; AvgDailyGrowth := 0 |} ].
Proof. vm_compute. reflexivity. Qed.

(** ** Table search *)

Lemma re_compile_literal (q : string) :
  literal q -> re_compile q = Some (literals q).
Proof.
  unfold literal. induction q as [|c q IH]; simpl; intros Hq; [reflexivity|].
  inversion Hq as [|? ? Hc Hq']; subst.
  destruct (c =? ".")%char eqn:Edot.
  - apply Ascii.eqb_eq in Edot. subst c. discriminate Hc.
  - rewrite Hc, (IH Hq'). reflexivity.
Qed.

Lemma match_here_literals (q s : string) :
  match_here (literals q) s = true <->
  exists post, lower s = (lower q ++ post)%string.
Proof.
  revert s. induction q as [|c q IH]; intros s; simpl.
  - split; [intros _; now exists (lower s) | reflexivity].
  - destruct s as [|x s]; simpl.
    + split; [discriminate | intros [post Hpost]; discriminate Hpost].
    + rewrite andb_true_iff, Ascii.eqb_eq, IH. split.
      * intros [-> [post ->]]. now exists post.
      * intros [post [= -> ->]]. split; [reflexivity | now exists post].
Qed.

Lemma substring_cons (q : string) (x : ascii) (s : string) :
  substring q (String x s) <->
  (exists post, String x s = (q ++ post)%string) \/ substring q s.
Proof.
  unfold substring. split.
  - intros ([|a pre] & post & Hs); simpl in Hs.
    + left. now exists post.
    + right. injection Hs as _ ->. now exists pre, post.
  - intros [[post Hs] | (pre & post & ->)].
    + now exists EmptyString, post.
    + now exists (String x pre), post.
Qed.

Lemma re_search_literals (q s : string) :
  re_search (literals q) s = true <-> contains_ci q s.
Proof.
  unfold contains_ci. induction s as [|x s IH].
  - simpl re_search. rewrite orb_false_r, match_here_literals. simpl lower.
    unfold substring. split.
    + intros [post Hpost]. now exists EmptyString, post.
    + intros ([|a pre] & post & Hs); simpl in Hs; [now exists post | discriminate].
  - simpl re_search. rewrite orb_true_iff, match_here_literals, IH.
    simpl lower. now rewrite substring_cons.
Qed.

(** C7, as the spec words it, fails: the query is compiled as a regular
    expression, so that the query [c.] keeps a row whose Drive reads
    [C:] although no column contains the two characters [c.]. *)
Lemma search_query_is_a_pattern :
  let astype_str := fun _ : Reading =>
    ["1970-01-04 00:00:00"; "C:"; "100.0"; "55.0"; "45.0"; "45.0"] in
  table_search astype_str "c." [sample_c3] = Some [sample_c3] /\
  ~ exists col, In col (astype_str sample_c3) /\ contains_ci "c." col.
Proof.
  intros astype_str. split; [reflexivity|].
  intros (col & Hcol & Hsub). apply re_search_literals in Hsub.
  simpl in Hcol. repeat destruct Hcol as [<- | Hcol]; try discriminate Hsub.
  exact Hcol.
Qed.

Section TableSearch.

Variable astype_str : Reading -> list string.

(** C7 (amended): for a non-empty query made of ordinary characters only
    (none of the regular-expression special characters), the table
    search keeps a row exactly when at least one column's string form
    contains the query as a substring, compared case-insensitively. *)
Theorem table_search_literal (search_query : string) (display_df : DataFrame) :
  search_query <> EmptyString ->
  literal search_query ->
  exists kept,
    table_search astype_str search_query display_df = Some kept /\
    forall row,
      In row kept <->
      In row display_df /\
      exists col, In col (astype_str row) /\ contains_ci search_query col.
Proof.
  intros Hne Hlit. unfold table_search.
  destruct (search_query =? "")%string eqn:E;
    [apply String.eqb_eq in E; contradiction|].
  rewrite (re_compile_literal _ Hlit). eexists. split; [reflexivity|].
  intros row. rewrite filter_In, existsb_exists.
  split; intros [Hin (col & Hcol & Hm)]; (split; [exact Hin|]); exists col;
    (split; [exact Hcol|]); now apply re_search_literals.
Qed.

End TableSearch.

Lemma table_search_literal_witness :
  let astype_str := fun r : Reading => [Drive r] in
  exists kept,
    table_search astype_str "d:" sample_df = Some kept /\
    forall row,
      In row kept <->
      In row sample_df /\
      exists col, In col (astype_str row) /\ contains_ci "d:" col.
Proof.
  intros astype_str. apply (table_search_literal astype_str "d:" sample_df).
  - discriminate.
  - unfold literal. simpl. repeat constructor.
Defined.

(** * Further properties of the page *)

(** ** Lists and drive names *)

Lemma filter_all {A : Type} (f : A -> bool) (l : list A) :
  (forall x, In x l -> f x = true) -> filter f l = l.
Proof.
  induction l as [|a l IH]; intros Hall; simpl; [reflexivity|].
  rewrite (Hall a) by now left. f_equal. apply IH. intros x Hx. apply Hall. now right.
Qed.

Lemma filter_twice {A : Type} (f : A -> bool) (l : list A) :
  filter f (filter f l) = filter f l.
Proof.
  apply filter_all. intros x Hx. now apply filter_In in Hx.
Qed.

Lemma unique_In (col : list string) (d : string) : In d (unique col) <-> In d col.
Proof.
  induction col as [|c col IH]; simpl; [reflexivity|].
  rewrite filter_In, IH, negb_true_iff, String.eqb_neq.
  destruct (string_dec c d) as [-> | Hne]; [tauto|].
  split; [tauto|]. intros [Hc | Hd]; [tauto|]. right. split; [exact Hd | congruence].
Qed.

Lemma unique_NoDup (col : list string) : NoDup (unique col).
Proof.
  induction col as [|c col IH]; simpl; constructor.
  - rewrite filter_In, String.eqb_refl. intros [_ Hc]. discriminate Hc.
  - now apply NoDup_filter.
Qed.

Lemma all_drives_In (df : DataFrame) (d : string) :
  In d (all_drives df) <-> In d (map Drive df).
Proof.
  unfold all_drives. rewrite <- (unique_In (map Drive df)). split; intros Hin.
  - eapply Permutation_in; [symmetry; apply DriveSort.Permuted_sort | exact Hin].
  - eapply Permutation_in; [apply DriveSort.Permuted_sort | exact Hin].
Qed.

(** ** The outcome of [main] *)

Lemma restrict_filtered_df (df : DataFrame) (start_date end_date : date)
    (selected_drives : list string) :
  restrict (filtered_df df start_date end_date selected_drives) (Some selected_drives)
  = filtered_df df start_date end_date selected_drives.
Proof.
  unfold restrict, filtered_df. destruct (empty selected_drives); [reflexivity|].
  apply filter_twice.
Qed.

(** The statistics of a non-empty filtered frame are always there. *)
Lemma filtered_stats_Some `{SortValues} (df : DataFrame) (start_date end_date : date)
    (selected_drives : list string) :
  filtered_df df start_date end_date selected_drives <> [] ->
  exists stats,
    get_latest_stats (filtered_df df start_date end_date selected_drives)
                     (Some selected_drives) = Some stats /\
    latest_data stats =
      groupby_first
        (sort_values false (filtered_df df start_date end_date selected_drives)).
Proof.
  intros Hne.
  destruct (get_latest_stats_Some
              (filtered_df df start_date end_date selected_drives)
              (Some selected_drives)) as (stats & Hstats & Hlatest & _).
  - now rewrite restrict_filtered_df.
  - exists stats. split; [exact Hstats|]. now rewrite Hlatest, restrict_filtered_df.
Qed.

(** X1: whatever the frame and the filter values, the page never ends in
    the error "Unable to calculate statistics": once the filtered frame is
    not empty its statistics exist. *)
Theorem main_never_statistics_error `{SortValues} (df : DataFrame)
    (start_date end_date : date) (selected_drives : list string) :
  main df start_date end_date selected_drives <> StatisticsError.
Proof.
  unfold main. destruct (empty df); [discriminate|].
  destruct (empty (filtered_df df start_date end_date selected_drives)) eqn:E;
    [discriminate|].
  apply empty_false in E.
  destruct (filtered_stats_Some df start_date end_date selected_drives E)
    as (stats & -> & _).
  discriminate.
Qed.

(** X2: the page shows the first warning exactly on an empty frame, the
    second exactly when the frame has rows but none lies in the date
    window with a selected drive (any drive when none is selected), and
    otherwise the report, built on the filtered frame with one latest row
    per drive of it. *)
Theorem main_outcome `{SortValues} (df : DataFrame)
    (start_date end_date : date) (selected_drives : list string) :
  let keeps r :=
    start_date <= date_of (Date r) /\ date_of (Date r) <= end_date /\
    (selected_drives = [] \/ In (Drive r) selected_drives) in
  (main df start_date end_date selected_drives = NoDataWarning <-> df = []) /\
  (main df start_date end_date selected_drives = NoFilteredDataWarning <->
   df <> [] /\ forall r, In r df -> ~ keeps r) /\
  ((exists r, In r df /\ keeps r) ->
   exists stats,
     main df start_date end_date selected_drives
     = Report stats (filtered_df df start_date end_date selected_drives) /\
     NoDup (map Drive (latest_data stats)) /\
     forall d, In d (map Drive (latest_data stats)) <->
               exists r, In r df /\ keeps r /\ Drive r = d).
Proof.
  intros keeps.
  assert (Hkeeps : forall r,
             In r (filtered_df df start_date end_date selected_drives) <->
             In r df /\ keeps r).
  { intros r. unfold filtered_df, date_filter, date_mask, keeps.
    destruct selected_drives as [|d ds]; simpl empty; cbv iota.
    - rewrite filter_In, andb_true_iff, !Z.leb_le. intuition.
    - rewrite !filter_In, isin_In, andb_true_iff, !Z.leb_le. intuition discriminate. }
  unfold main. destruct (empty df) eqn:Edf.
  - apply empty_true in Edf. subst df. split; [tauto|]. split.
    + split; [discriminate | intros [Hne _]; congruence].
    + intros (r & [] & _).
  - apply empty_false in Edf.
    destruct (empty (filtered_df df start_date end_date selected_drives)) eqn:Ef.
    + apply empty_true in Ef. split; [split; [discriminate | congruence]|]. split.
      * split; [|reflexivity]. intros _. split; [exact Edf|].
        intros r Hr Hk. assert (Hin : In r []) by (rewrite <- Ef; apply Hkeeps; tauto).
        destruct Hin.
      * intros (r & Hr & Hk).
        assert (Hin : In r []) by (rewrite <- Ef; apply Hkeeps; tauto). destruct Hin.
    + apply empty_false in Ef.
      destruct (filtered_stats_Some df start_date end_date selected_drives Ef)
        as (stats & Hstats & Hlatest).
      rewrite Hstats. split; [split; [discriminate | congruence]|]. split.
      * split; [discriminate|]. intros [_ Hnone]. exfalso.
        destruct (filtered_df df start_date end_date selected_drives) as [|r rs] eqn:El;
          [congruence|].
        apply (Hnone r); apply (Hkeeps r); now left.
      * intros _. exists stats. split; [reflexivity|]. rewrite Hlatest.
        destruct (latest_rows_spec (filtered_df df start_date end_date selected_drives))
          as (Hnodup & Hdrives & _).
        split; [exact Hnodup|]. intros d. rewrite Hdrives, in_map_iff.
        split; intros (r & H1 & H2).
        -- exists r. apply Hkeeps in H2. tauto.
        -- exists r. split; [tauto|]. apply Hkeeps. tauto.
Qed.

Lemma main_outcome_witness :
  exists stats,
    main sample_df 2 3 ["C:"] = Report stats (filtered_df sample_df 2 3 ["C:"]) /\
    NoDup (map Drive (latest_data stats)).
Proof.
  destruct (proj2 (proj2 (main_outcome sample_df 2 3 ["C:"]))) as (stats & Hmain & Hnodup & _).
  - exists sample_c3. split; [simpl; auto|].
    split; [vm_compute; discriminate|]. split; [vm_compute; discriminate|].
    right. now left.
  - now exists stats.
Defined.

(** The three outcomes on the sample: no frame, a window before every
    reading, and a window holding the day-3 readings of C:. *)
Example main_sample :
  main [] 1 3 ["C:"] = NoDataWarning /\
  main sample_df 5 9 ["C:"] = NoFilteredDataWarning /\
  main sample_df 2 3 ["C:"]
  = Report {| total_size := 100; total_used := 58; total_free := 42;
              avg_free_percent := Some 42%Q; critical_drives := 0;
              latest_data := [sample_c3_late] |}
           [sample_c3_late; sample_c3].
Proof. repeat split; vm_compute; reflexivity. Qed.

Lemma string_compare_refl (a : string) : String.compare a a = Eq.
Proof.
  induction a as [|x a IH]; simpl; [reflexivity|].
  unfold Ascii.compare. now rewrite N.compare_refl.
Qed.

Lemma string_leb_trans (a b c : string) :
  String.leb a b = true -> String.leb b c = true -> String.leb a c = true.
Proof.
  unfold String.leb. revert b c.
  induction a as [|x a IH]; intros [|y b] [|z c]; simpl; try congruence.
  specialize (IH b c). unfold Ascii.compare.
  destruct (N.compare_spec (N_of_ascii x) (N_of_ascii y)) as [Hxy | Hxy | Hxy];
    destruct (N.compare_spec (N_of_ascii y) (N_of_ascii z)) as [Hyz | Hyz | Hyz];
    try congruence;
    destruct (N.compare_spec (N_of_ascii x) (N_of_ascii z)) as [Hxz | Hxz | Hxz];
    try congruence; try lia; auto.
Qed.

Lemma drive_sort_sorted (l : list string) : StronglySorted drive_le (DriveSort.sort l).
Proof.
  apply DriveSort.StronglySorted_sort. intros a b c. apply string_leb_trans.
Qed.

(** Two duplicate-free ascending lists with the same members are equal. *)
Lemma ascending_unique (l1 l2 : list string) :
  StronglySorted drive_le l1 -> StronglySorted drive_le l2 ->
  NoDup l1 -> NoDup l2 ->
  (forall x, In x l1 <-> In x l2) -> l1 = l2.
Proof.
  revert l2. induction l1 as [|a l1 IH]; intros [|b l2] Hs1 Hs2 Hn1 Hn2 Hmem.
  - reflexivity.
  - exfalso. apply (Hmem b). now left.
  - exfalso. apply (Hmem a). now left.
  - apply StronglySorted_inv in Hs1, Hs2.
    destruct Hs1 as [Hs1 Ha], Hs2 as [Hs2 Hb].
    rewrite Forall_forall in Ha, Hb.
    apply NoDup_cons_iff in Hn1, Hn2. destruct Hn1 as [Hna Hn1], Hn2 as [Hnb Hn2].
    assert (Hab : a = b).
    { destruct (proj1 (Hmem a) (or_introl eq_refl)) as [Heq | Hin]; [now symmetry|].
      destruct (proj2 (Hmem b) (or_introl eq_refl)) as [Heq | Hin']; [exact Heq|].
      apply String.leb_antisym; [now apply Ha | now apply Hb]. }
    subst b. f_equal. apply IH; auto. intros x. split; intros Hx.
    + destruct (proj1 (Hmem x) (or_intror Hx)) as [<- | Hin]; [contradiction | exact Hin].
    + destruct (proj2 (Hmem x) (or_intror Hx)) as [<- | Hin]; [contradiction | exact Hin].
Qed.

Lemma all_drives_NoDup (df : DataFrame) : NoDup (all_drives df).
Proof.
  unfold all_drives. eapply Permutation_NoDup; [apply DriveSort.Permuted_sort|].
  apply unique_NoDup.
Qed.

Lemma group_keys_all_drives (df : DataFrame) : group_keys df = all_drives df.
Proof.
  apply ascending_unique.
  - apply drive_sort_sorted.
  - apply drive_sort_sorted.
  - apply group_keys_NoDup.
  - apply all_drives_NoDup.
  - intros x. now rewrite group_keys_In, all_drives_In.
Qed.

Lemma all_drives_members (df df' : DataFrame) :
  (forall d, In d (map Drive df) <-> In d (map Drive df')) ->
  all_drives df = all_drives df'.
Proof.
  intros Hmem. apply ascending_unique;
    try apply drive_sort_sorted; try apply all_drives_NoDup.
  intros x. now rewrite !all_drives_In.
Qed.

Lemma ascending_strict (l : list string) :
  StronglySorted drive_le l -> NoDup l ->
  StronglySorted (fun a b => (a <? b)%string = true) l.
Proof.
  induction 1 as [|a l Hs IH Ha]; intros Hn; constructor.
  - apply IH. now apply NoDup_cons_iff in Hn.
  - apply NoDup_cons_iff in Hn. destruct Hn as [Hna _].
    rewrite Forall_forall in *. intros b Hb. specialize (Ha b Hb).
    unfold drive_le, String.leb in Ha. unfold String.ltb.
    destruct (String.compare a b) eqn:E; [|reflexivity | discriminate].
    apply String.compare_eq_iff in E. subst b. contradiction.
Qed.

(** X3: the drive options of the page, which are also the default
    selection, list every drive of the frame once, in strictly ascending
    order; and the latest rows of [get_latest_stats] come in that same
    order: their drives are the drive options of the rows they were
    taken from. *)
Theorem latest_data_in_drive_order `{SortValues} (df : DataFrame) :
  StronglySorted (fun a b => (a <? b)%string = true) (all_drives df) /\
  (forall d, In d (all_drives df) <-> In d (map Drive df)) /\
  (forall selected_drives stats,
     get_latest_stats df selected_drives = Some stats ->
     map Drive (latest_data stats) = all_drives (restrict df selected_drives)).
Proof.
  split; [|split].
  - apply ascending_strict; [apply drive_sort_sorted | apply all_drives_NoDup].
  - apply all_drives_In.
  - intros selected_drives stats Hstats.
    assert (Hne : restrict df selected_drives <> []).
    { intros Hnil. unfold get_latest_stats in Hstats.
      destruct (empty df); [discriminate|]. now rewrite Hnil in Hstats. }
    destruct (get_latest_stats_Some df selected_drives Hne) as (st & Hst & Hlatest & _).
    rewrite Hstats in Hst. injection Hst as <-.
    rewrite Hlatest, groupby_first_drives, group_keys_all_drives.
    apply all_drives_members.
    pose proof (sort_values_perm false (restrict df selected_drives)) as Hperm.
    intros d. split; intros Hd.
    + eapply Permutation_in; [symmetry; apply Permutation_map; exact Hperm | exact Hd].
    + eapply Permutation_in; [apply Permutation_map; exact Hperm | exact Hd].
Qed.

Lemma latest_data_in_drive_order_witness :
  exists stats,
    get_latest_stats sample_df (Some ["D:"; "C:"]) = Some stats /\
    map Drive (latest_data stats) = all_drives (restrict sample_df (Some ["D:"; "C:"])).
Proof.
  eexists. split; [vm_compute; reflexivity|].
  apply (proj2 (proj2 (latest_data_in_drive_order sample_df))). vm_compute. reflexivity.
Defined.

(** Whatever the order of the selection, the latest rows come by drive
    name. *)
Example latest_data_order_sample :
  option_map (fun stats => map Drive (latest_data stats))
             (get_latest_stats sample_df (Some ["D:"; "C:"]))
  = Some ["C:"; "D:"].
Proof. vm_compute. reflexivity. Qed.

Lemma restrict_all_drives (df : DataFrame) :
  restrict df (Some (all_drives df)) = df.
Proof.
  unfold restrict. destruct (empty (all_drives df)); [reflexivity|].
  apply filter_all. intros r Hr. apply isin_In, all_drives_In. now apply in_map.
Qed.

(** X4: selecting every drive of the frame gives the same statistics as
    passing no selection. *)
Theorem get_latest_stats_all_drives `{SortValues} (df : DataFrame) :
  get_latest_stats df (Some (all_drives df)) = get_latest_stats df None.
Proof.
  unfold get_latest_stats. now rewrite restrict_all_drives.
Qed.

Lemma date_range_bounds (today : date) (df : DataFrame) (r : Reading) :
  In r df ->
  fst (get_date_range today df) <= date_of (Date r) <= snd (get_date_range today df).
Proof.
  unfold get_date_range. destruct df as [|r0 df]; [intros []|]. intros Hr.
  assert (Hd : In (Date r) (Date r0 :: map Date df)) by (apply (in_map Date) in Hr; exact Hr).
  simpl map. cbv iota. simpl fst. simpl snd.
  destruct (col_min_spec (map Date df) (Date r0)) as [_ Hlo].
  destruct (col_max_spec (map Date df) (Date r0)) as [_ Hhi].
  split; apply date_of_mono; auto.
Qed.

(** X5: with the three filters left at their defaults (the first and last
    date of the frame, every drive) nothing is filtered out, and on a
    non-empty frame the page is the report over the whole frame. *)
Theorem default_filters_keep_all `{SortValues} (today : date) (df : DataFrame) :
  let min_date := fst (get_date_range today df) in
  let max_date := snd (get_date_range today df) in
  filtered_df df min_date max_date (all_drives df) = df /\
  (df <> [] ->
   exists stats,
     main df min_date max_date (all_drives df) = Report stats df /\
     get_latest_stats df None = Some stats).
Proof.
  intros min_date max_date.
  assert (Hall : filtered_df df min_date max_date (all_drives df) = df).
  { unfold filtered_df.
    assert (Hdate : date_filter df min_date max_date = df).
    { unfold date_filter. apply filter_all. intros r Hr. unfold date_mask.
      pose proof (date_range_bounds today df r Hr) as Hb. fold min_date max_date in Hb.
      apply andb_true_iff. rewrite !Z.leb_le. lia. }
    rewrite Hdate. destruct (empty (all_drives df)); [reflexivity|].
    apply filter_all. intros r Hr. apply isin_In, all_drives_In. now apply in_map. }
  split; [exact Hall|]. intros Hne. unfold main. rewrite Hall.
  apply empty_false in Hne. rewrite Hne.
  assert (Hsame : get_latest_stats df (Some (all_drives df)) = get_latest_stats df None)
    by (unfold get_latest_stats; now rewrite restrict_all_drives).
  rewrite Hsame.
  destruct (get_latest_stats df None) as [stats|] eqn:E.
  - now exists stats.
  - exfalso. unfold get_latest_stats in E. rewrite Hne in E. simpl restrict in E.
    rewrite Hne in E. discriminate E.
Qed.

Lemma default_filters_keep_all_witness :
  filtered_df sample_df 1 3 (all_drives sample_df) = sample_df /\
  exists stats,
    main sample_df 1 3 (all_drives sample_df) = Report stats sample_df /\
    get_latest_stats sample_df None = Some stats.
Proof.
  destruct (default_filters_keep_all 0 sample_df) as [Hall Hreport].
  split; [exact Hall|]. apply Hreport. discriminate.
Defined.

(** X6: a date window whose end lies before its start keeps no row, and on
    a non-empty frame the page then shows the warning about the selected
    filters. *)
Theorem inverted_window_is_empty `{SortValues} (df : DataFrame)
    (start_date end_date : date) (selected_drives : list string) :
  end_date < start_date ->
  filtered_df df start_date end_date selected_drives = [] /\
  (df <> [] -> main df start_date end_date selected_drives = NoFilteredDataWarning).
Proof.
  intros Hinv.
  assert (Hdate : date_filter df start_date end_date = []).
  { unfold date_filter. induction df as [|r df IH]; simpl; [reflexivity|].
    unfold date_mask at 1.
    destruct (start_date <=? date_of (Date r)) eqn:E1;
      destruct (date_of (Date r) <=? end_date) eqn:E2; simpl; try exact IH.
    apply Z.leb_le in E1, E2. lia. }
  assert (Hnil : filtered_df df start_date end_date selected_drives = []).
  { unfold filtered_df. rewrite Hdate. now destruct (empty selected_drives). }
  split; [exact Hnil|]. intros Hne. unfold main.
  apply empty_false in Hne. now rewrite Hne, Hnil.
Qed.

Lemma inverted_window_is_empty_witness :
  filtered_df sample_df 3 2 ["C:"] = [] /\
  (sample_df <> [] -> main sample_df 3 2 ["C:"] = NoFilteredDataWarning).
Proof.
  apply (inverted_window_is_empty sample_df 3 2 ["C:"]). reflexivity.
Defined.

(** ** More on [get_latest_stats] *)

Lemma get_latest_stats_inv `{SortValues} (df : DataFrame)
    (selected_drives : option (list string)) (stats : Stats) :
  get_latest_stats df selected_drives = Some stats ->
  restrict df selected_drives <> [] /\
  latest_data stats = groupby_first (sort_values false (restrict df selected_drives)) /\
  total_size stats = sum (map TotalSizeGB (latest_data stats)) /\
  total_used stats = sum (map UsedSpaceGB (latest_data stats)) /\
  total_free stats = sum (map FreeSpaceGB (latest_data stats)) /\
  avg_free_percent stats = mean (map FreeSpacePercent (latest_data stats)) /\
  critical_drives stats =
    len (filter (fun r => Qltb (FreeSpacePercent r) 10) (latest_data stats)).
Proof.
  intros Hstats.
  assert (Hne : restrict df selected_drives <> []).
  { intros Hnil. unfold get_latest_stats in Hstats.
    destruct (empty df); [discriminate|]. now rewrite Hnil in Hstats. }
  split; [exact Hne|].
  destruct (get_latest_stats_Some df selected_drives Hne) as (st & Hst & Hrest).
  rewrite Hstats in Hst. injection Hst as <-. exact Hrest.
Qed.

Lemma restrict_incl (df : DataFrame) (selected_drives : option (list string))
    (r : Reading) :
  In r (restrict df selected_drives) -> In r df.
Proof.
  unfold restrict. destruct selected_drives as [drives|]; [|auto].
  destruct (empty drives); [auto|]. intros Hr. now apply filter_In in Hr.
Qed.

Lemma latest_data_incl `{SortValues} (df : DataFrame)
    (selected_drives : option (list string)) (stats : Stats) (r : Reading) :
  get_latest_stats df selected_drives = Some stats ->
  In r (latest_data stats) -> In r df.
Proof.
  intros Hstats Hr. destruct (get_latest_stats_inv _ _ _ Hstats) as (_ & Hlatest & _).
  rewrite Hlatest in Hr.
  destruct (latest_rows_spec (restrict df selected_drives)) as (_ & _ & Hrows).
  apply Hrows in Hr. eapply restrict_incl. apply Hr.
Qed.

Lemma total_plus (f g : Reading -> Q) (rows : DataFrame) :
  (total f rows + total g rows == total (fun r => f r + g r) rows)%Q.
Proof.
  induction rows as [|r rows IH]; simpl; [reflexivity|]. rewrite <- IH. ring.
Qed.

Lemma total_ext (f g : Reading -> Q) (rows : DataFrame) :
  (forall r, In r rows -> f r == g r)%Q -> (total f rows == total g rows)%Q.
Proof.
  induction rows as [|r rows IH]; intros Hfg; simpl; [reflexivity|].
  rewrite (Hfg r) by now left. rewrite IH; [reflexivity|].
  intros x Hx. apply Hfg. now right.
Qed.

(** X7: when every reading of the frame has UsedSpaceGB + FreeSpaceGB equal
    to TotalSizeGB, the three totals of the statistics add up the same
    way: total_used + total_free = total_size. *)
Theorem totals_add_up `{SortValues} (df : DataFrame)
    (selected_drives : option (list string)) (stats : Stats) :
  (forall r, In r df -> UsedSpaceGB r + FreeSpaceGB r == TotalSizeGB r)%Q ->
  get_latest_stats df selected_drives = Some stats ->
  (total_used stats + total_free stats == total_size stats)%Q.
Proof.
  intros Hrows Hstats.
  destruct (get_latest_stats_inv _ _ _ Hstats) as (_ & _ & -> & -> & -> & _).
  rewrite !sum_total, total_plus. apply total_ext.
  intros r Hr. apply Hrows. eapply latest_data_incl; eassumption.
Qed.

Lemma totals_add_up_witness :
  exists stats,
    get_latest_stats sample_df None = Some stats /\
    (total_used stats + total_free stats == total_size stats)%Q.
Proof.
  eexists. split; [vm_compute; reflexivity|].
  apply (totals_add_up sample_df None); [|vm_compute; reflexivity].
  intros r Hr. simpl in Hr.
  repeat destruct Hr as [<- | Hr]; try reflexivity. destruct Hr.
Defined.

(** ** Status cards and severity *)

Lemma alert_below_10 (p : Q) :
  ((get_status_text p =? "Emergency")%string || (get_status_text p =? "Critical")%string)
  = Qltb p 10.
Proof.
  unfold get_status_text.
  destruct (Qltb_spec p 5) as [H5|H5]; destruct (Qltb_spec p 10) as [H10|H10];
    try reflexivity.
  - exfalso. lra.
  - destruct (Qltb p 20); reflexivity.
Qed.

Lemma filter_map_length {A B : Type} (g : A -> B) (f : B -> bool) (l : list A) :
  List.length (filter f (map g l)) = List.length (filter (fun a => f (g a)) l).
Proof.
  induction l as [|a l IH]; simpl; [reflexivity|].
  destruct (f (g a)); simpl; now rewrite IH.
Qed.

(** X9: the Critical Drives metric of the statistics is the number of
    drive cards labelled Emergency or Critical, and there is one card per
    latest row, in the same order. *)
Theorem critical_drives_counts_alert_cards `{SortValues} (df : DataFrame)
    (selected_drives : option (list string)) (stats : Stats) :
  get_latest_stats df selected_drives = Some stats ->
  critical_drives stats = len (filter is_alert (drive_cards (latest_data stats))) /\
  map card_drive (drive_cards (latest_data stats)) = map Drive (latest_data stats) /\
  0 <= critical_drives stats <= len (latest_data stats).
Proof.
  intros Hstats.
  destruct (get_latest_stats_inv _ _ _ Hstats) as (_ & _ & _ & _ & _ & _ & Hcrit).
  assert (Hcount : critical_drives stats
                   = len (filter is_alert (drive_cards (latest_data stats)))).
  { rewrite Hcrit. unfold len, drive_cards. rewrite filter_map_length. f_equal. f_equal.
    apply filter_ext. intros r. unfold is_alert, drive_card. simpl.
    symmetry. apply alert_below_10. }
  split; [exact Hcount|]. split.
  - unfold drive_cards. rewrite map_map. reflexivity.
  - rewrite Hcrit. unfold len. split; [lia|].
    apply inj_le, filter_length_le.
Qed.

Lemma critical_drives_counts_alert_cards_witness :
  exists stats,
    get_latest_stats sample_df None = Some stats /\
    critical_drives stats = len (filter is_alert (drive_cards (latest_data stats))).
Proof.
  eexists. split; [vm_compute; reflexivity|].
  eapply (critical_drives_counts_alert_cards sample_df None). vm_compute. reflexivity.
Defined.

(** X10: the classification is monotone: a drive with no more free space
    than another is never given a milder label. *)
Theorem status_monotone (p q : Q) :
  (p <= q)%Q ->
  (severity (get_status_text q) <= severity (get_status_text p))%nat.
Proof.
  intros Hpq. unfold get_status_text.
  destruct (Qltb_spec p 5); destruct (Qltb_spec q 5);
    destruct (Qltb_spec p 10); destruct (Qltb_spec q 10);
    destruct (Qltb_spec p 20); destruct (Qltb_spec q 20);
    try (vm_compute; lia); exfalso; lra.
Qed.

Lemma status_monotone_witness :
  (severity (get_status_text 15) <= severity (get_status_text 7))%nat.
Proof.
  apply (status_monotone 7 15). discriminate.
Defined.

(** X11: with a non-empty selection handed to [get_latest_stats], the
    latest rows are those of the selected drives that occur in the frame:
    a drive has a latest row exactly when it is selected and has a
    reading. *)
Theorem latest_data_follows_selection `{SortValues} (df : DataFrame)
    (d0 : string) (ds : list string) (stats : Stats) :
  get_latest_stats df (Some (d0 :: ds)) = Some stats ->
  forall d, In d (map Drive (latest_data stats)) <->
            In d (d0 :: ds) /\ In d (map Drive df).
Proof.
  intros Hstats d.
  destruct (get_latest_stats_inv _ _ _ Hstats) as (_ & Hlatest & _).
  rewrite Hlatest.
  destruct (latest_rows_spec (restrict df (Some (d0 :: ds)))) as (_ & Hdrives & _).
  rewrite Hdrives. simpl restrict. rewrite !in_map_iff. split.
  - intros (r & <- & Hr). apply filter_In in Hr. destruct Hr as [Hr Hsel].
    apply isin_In in Hsel. split; [exact Hsel | now exists r].
  - intros (Hsel & r & <- & Hr). exists r. split; [reflexivity|].
    apply filter_In. split; [exact Hr | now apply isin_In].
Qed.

Lemma latest_data_follows_selection_witness :
  exists stats,
    get_latest_stats sample_df (Some ["D:"; "E:"]) = Some stats /\
    forall d, In d (map Drive (latest_data stats)) <->
              In d ["D:"; "E:"] /\ In d (map Drive sample_df).
Proof.
  eexists. split; [vm_compute; reflexivity|].
  apply (latest_data_follows_selection sample_df "D:" ["E:"]). vm_compute. reflexivity.
Defined.

(** ** Trend charts *)

Lemma count_by_key (keys : list string) (rows : DataFrame) :
  NoDup keys -> (forall r, In r rows -> In (Drive r) keys) ->
  list_sum (map (fun key => List.length (filter (fun r => Drive r =? key)%string rows)) keys)
  = List.length rows.
Proof.
  intros Hnodup. induction rows as [|r rows IH]; intros Hkeys.
  - simpl. clear Hnodup Hkeys. induction keys as [|k keys IHk]; [reflexivity | exact IHk].
  - specialize (IH (fun x Hx => Hkeys x (or_intror Hx))).
    assert (Hr : In (Drive r) keys) by (apply Hkeys; now left).
    clear Hkeys. simpl List.length. rewrite <- IH. clear IH.
    induction keys as [|k keys IHk]; [destruct Hr|].
    apply NoDup_cons_iff in Hnodup. destruct Hnodup as [Hk Hnodup].
    simpl map. simpl list_sum. simpl filter at 1.
    destruct (String.eqb_spec (Drive r) k) as [Heq | Hne].
    + subst k. simpl List.length. rewrite Nat.add_succ_l. f_equal. f_equal.
      clear IHk Hr. induction keys as [|k' keys IHk']; [reflexivity|].
      simpl. apply NoDup_cons_iff in Hnodup. destruct Hnodup as [Hk' Hnodup].
      destruct (String.eqb_spec (Drive r) k') as [Heq | Hne].
      * exfalso. apply Hk. left. now symmetry.
      * f_equal. apply IHk'; [|exact Hnodup]. intros Hin. apply Hk. now right.
    + destruct Hr as [Heq | Hr]; [congruence|].
      rewrite (IHk Hnodup Hr). lia.
Qed.

Lemma ascending_dates (rows : DataFrame) :
  StronglySorted (fun a b => Date a <= Date b) rows ->
  StronglySorted Z.le (map Date rows).
Proof.
  induction 1 as [|a l _ IH Hall]; simpl; constructor; [exact IH|].
  rewrite Forall_forall in *. intros t Ht. apply in_map_iff in Ht.
  destruct Ht as (r & <- & Hr). now apply Hall.
Qed.

Lemma combine_columns {A B : Type} (f : Reading -> A) (g : Reading -> B)
    (rows : DataFrame) :
  combine (map f rows) (map g rows) = map (fun r => (f r, g r)) rows.
Proof.
  induction rows as [|r rows IH]; simpl; [reflexivity | now rewrite IH].
Qed.

(** X12: a trend chart has one trace per distinct drive of the filtered
    frame; the trace of a drive plots that drive's readings, each once, in
    ascending order of Date; and over all traces every reading of the
    filtered frame is plotted exactly once. *)
Theorem trend_figure_traces `{SortValues} (suffix : string) (column : Reading -> Q)
    (filtered : DataFrame) :
  List.length (trend_figure suffix column filtered) = List.length (all_drives filtered) /\
  (forall d, In d (map Drive filtered) ->
     exists t,
       In t (trend_figure suffix column filtered) /\
       trace_name t = (d ++ suffix)%string /\
       trace_x t <> [] /\
       StronglySorted Z.le (trace_x t) /\
       Permutation (combine (trace_x t) (trace_y t))
                   (map (fun r => (Date r, column r))
                        (filter (fun r => Drive r =? d)%string filtered))) /\
  list_sum (map (fun t => List.length (trace_x t)) (trend_figure suffix column filtered))
  = List.length filtered.
Proof.
  unfold trend_figure. split; [|split].
  - rewrite length_map. unfold all_drives.
    apply Permutation_length, DriveSort.Permuted_sort.
  - intros d Hd. eexists. split.
    + apply in_map_iff. exists d. split; [reflexivity | now apply unique_In].
    + cbn [trace_name trace_x trace_y]. split; [reflexivity|].
      unfold drive_rows.
      pose proof (sort_values_perm true (filter (fun r => Drive r =? d)%string filtered))
        as Hperm.
      split; [|split].
      * intros Hnil. apply map_eq_nil in Hnil. rewrite Hnil in Hperm.
        apply Permutation_sym, Permutation_nil in Hperm.
        apply in_map_iff in Hd. destruct Hd as (r & <- & Hr).
        assert (Hin : In r (filter (fun r0 => Drive r0 =? Drive r)%string filtered))
          by (apply filter_In; split; [exact Hr | apply String.eqb_refl]).
        rewrite Hperm in Hin. destruct Hin.
      * apply ascending_dates, sort_values_ascending.
      * rewrite combine_columns. apply Permutation_map. now symmetry.
  - rewrite map_map. cbn [trace_x].
    rewrite <- (count_by_key (unique (map Drive filtered)) filtered).
    + f_equal. apply map_ext. intros d. rewrite length_map. unfold drive_rows.
      symmetry. apply Permutation_length, sort_values_perm.
    + apply unique_NoDup.
    + intros r Hr. apply unique_In. now apply in_map.
Qed.

Lemma trend_figure_traces_witness :
  exists t,
    In t (fig_trend sample_df) /\
    trace_name t = "C: Used Space" /\
    trace_x t <> [] /\
    StronglySorted Z.le (trace_x t) /\
    Permutation (combine (trace_x t) (trace_y t))
                (map (fun r => (Date r, UsedSpaceGB r))
                     (filter (fun r => Drive r =? "C:")%string sample_df)).
Proof.
  apply (proj1 (proj2 (trend_figure_traces " Used Space" UsedSpaceGB sample_df)) "C:").
  simpl. left. reflexivity.
Defined.

(** The traces of the sample: drive C: first (it appears first), its
    three readings in date order. *)
Example fig_trend_sample :
  fig_trend sample_df
  = [ {| trace_name := "C: Used Space";
         trace_x := [1 * ns_per_day; 3 * ns_per_day; 3 * ns_per_day + 5 * ns_per_hour];
         trace_y := [40; 55; 58]%Q |};
      {| trace_name := "D: Used Space";
         trace_x := [2 * ns_per_day];
         trace_y := [46]%Q |} ].
Proof. vm_compute. reflexivity. Qed.

(** ** Growth chart *)

(** X13: the growth analysis stops with OutOfBoundsDatetime exactly when
    two readings of some selected drive lie further apart than a
    Timedelta holds, and returns its rows otherwise; the rows are one per
    selected drive having at least two readings in the filtered frame, in
    the order of the selection, and the growth chart is left out exactly
    when no selected drive has two readings. *)
Theorem growth_rows_follow_selection `{SortValues} (selected_drives : list string)
    (filtered : DataFrame) :
  (growth_analysis selected_drives filtered = inr OutOfBoundsDatetime <->
   exists d r r',
     In d selected_drives /\ In r filtered /\ In r' filtered /\
     Drive r = d /\ Drive r' = d /\ int64_max < Date r' - Date r) /\
  (growth_analysis selected_drives filtered = inr OutOfBoundsDatetime \/
   exists growth_data, growth_analysis selected_drives filtered = inl growth_data) /\
  forall growth_data,
    growth_analysis selected_drives filtered = inl growth_data ->
    map growth_drive growth_data
    = filter (fun d => 2 <=? len (filter (fun r => Drive r =? d)%string filtered))
             selected_drives /\
    (fig_growth growth_data = None <->
     forall d, In d selected_drives ->
               len (filter (fun r => Drive r =? d)%string filtered) < 2) /\
    (forall bars, fig_growth growth_data = Some bars ->
                  map bar_x bars = map growth_drive growth_data).
Proof.
  unfold growth_analysis. rewrite growth_loop_cases. simpl app.
  rewrite <- overflows_iff.
  destruct (existsb (overflows filtered) selected_drives).
  - split; [tauto|]. split; [now left | discriminate].
  - split; [split; discriminate|]. split; [right; eauto|].
    intros growth_data [= <-].
    pose proof (growth_rows_of_drives filtered selected_drives) as Hdrives.
    split; [exact Hdrives|]. unfold fig_growth. split.
    + destruct (growth_rows_of filtered selected_drives) as [|row rows] eqn:E; simpl empty;
        cbv iota.
      * split; [|reflexivity]. intros _ d Hd.
        destruct (2 <=? len (filter (fun r => (Drive r =? d)%string) filtered)) eqn:Elen;
          [|now apply Z.leb_gt].
        assert (Hin : In d (filter
                              (fun d => 2 <=? len (filter (fun r => Drive r =? d)%string
                                                           filtered))
                              selected_drives)) by (apply filter_In; tauto).
        rewrite <- Hdrives in Hin. destruct Hin.
      * split; [discriminate|]. intros Hnone. exfalso.
        assert (Hin : In (growth_drive row) (map growth_drive (row :: rows))) by now left.
        rewrite Hdrives in Hin. apply filter_In in Hin. destruct Hin as [Hsel Hlen].
        apply Z.leb_le in Hlen. specialize (Hnone _ Hsel). lia.
    + intros bars. destruct (empty (growth_rows_of filtered selected_drives)); [discriminate|].
      intros [= <-]. rewrite map_map. reflexivity.
Qed.

Lemma growth_rows_follow_selection_witness :
  growth_analysis ["C:"; "D:"] distant_df = inr OutOfBoundsDatetime /\
  map growth_drive
      [ {| growth_drive := "C:"; Initial := 40; Current := 58;
           Growth := 18; AvgDailyGrowth := 18 # 2 |} ]
  = filter (fun d => 2 <=? len (filter (fun r => Drive r =? d)%string sample_df))
           ["D:"; "C:"].
Proof.
  split.
  - apply (proj1 (growth_rows_follow_selection ["C:"; "D:"] distant_df)).
    exists "C:", sample_1700, sample_2200.
    repeat split; try reflexivity; simpl; auto.
  - apply (proj2 (proj2 (growth_rows_follow_selection ["D:"; "C:"] sample_df))).
    vm_compute. reflexivity.
Defined.

(** X14: in every growth row Growth is Current minus Initial, and the
    average daily growth is zero or has the sign of the growth and is no
    larger in size: it lies between zero and the growth. *)
Theorem growth_row_invariants `{SortValues} (selected_drives : list string)
    (filtered : DataFrame) (growth_data : list GrowthRow) (row : GrowthRow) :
  growth_analysis selected_drives filtered = inl growth_data ->
  In row growth_data ->
  (Growth row == Current row - Initial row)%Q /\
  (0 <= Growth row -> 0 <= AvgDailyGrowth row <= Growth row)%Q /\
  (Growth row <= 0 -> Growth row <= AvgDailyGrowth row <= 0)%Q.
Proof.
  unfold growth_analysis. rewrite growth_loop_cases. simpl app.
  destruct (existsb (overflows filtered) selected_drives); [discriminate|].
  intros [= <-] Hrow.
  destruct (growth_rows_of_In _ _ _ Hrow) as (first & rest & _ & ->).
  unfold growth_row_of. cbn [Growth Current Initial AvgDailyGrowth].
  set (g := (UsedSpaceGB (last (first :: rest) first) - UsedSpaceGB first)%Q).
  set (e := days (Date (last (first :: rest) first) - Date first)).
  split; [reflexivity|].
  destruct (0 <? e) eqn:E; [|split; intros; lra].
  apply Z.ltb_lt in E.
  assert (He : (1 <= inject_Z e)%Q) by (rewrite <- (Zle_Qle 1); lia).
  assert (Hpos : (0 < inject_Z e)%Q) by lra.
  split; intros Hg; split.
  - apply Qle_shift_div_l; [exact Hpos | lra].
  - apply Qle_shift_div_r; [exact Hpos|]. nra.
  - apply Qle_shift_div_l; [exact Hpos|]. nra.
  - apply Qle_shift_div_r; [exact Hpos | lra].
Qed.

Lemma growth_row_invariants_witness :
  let row := {| growth_drive := "C:"; Initial := 40; Current := 58;
                Growth := 18; AvgDailyGrowth := 18 # 2 |} in
  (Growth row == Current row - Initial row)%Q /\
  (0 <= Growth row -> 0 <= AvgDailyGrowth row <= Growth row)%Q /\
  (Growth row <= 0 -> Growth row <= AvgDailyGrowth row <= 0)%Q.
Proof.
  intros row.
  apply (growth_row_invariants ["C:"; "D:"] sample_df [row] row).
  - vm_compute. reflexivity.
  - now left.
Defined.

(** X15: a bar of the growth chart is red exactly when the drive's last
    reading uses more space than its first, and green when the usage
    shrank or stayed the same. *)
Theorem growth_bar_colors `{SortValues} (selected_drives : list string)
    (filtered : DataFrame) (growth_data : list GrowthRow) (bars : list Bar) :
  growth_analysis selected_drives filtered = inl growth_data ->
  fig_growth growth_data = Some bars ->
  Forall2 (fun row bar =>
             bar_x bar = growth_drive row /\
             (bar_color bar = "#ff6b6b" <-> Initial row < Current row)%Q /\
             (bar_color bar = "#51cf66" <-> Current row <= Initial row)%Q)
          growth_data bars.
Proof.
  unfold growth_analysis. rewrite growth_loop_cases. simpl app.
  destruct (existsb (overflows filtered) selected_drives); [discriminate|].
  intros [= <-].
  unfold fig_growth. destruct (empty (growth_rows_of filtered selected_drives));
    [discriminate|].
  intros [= <-].
  assert (Hshape : forall row, In row (growth_rows_of filtered selected_drives) ->
                               (Growth row == Current row - Initial row)%Q).
  { intros row Hrow. destruct (growth_rows_of_In _ _ _ Hrow) as (f & r & _ & ->).
    reflexivity. }
  induction (growth_rows_of filtered selected_drives) as [|row rows IH]; simpl;
    constructor.
  - cbn [bar_x bar_color]. split; [reflexivity|]. unfold marker_color.
    pose proof (Hshape row (or_introl eq_refl)) as Hg.
    destruct (Qltb_spec 0 (Growth row)); split; split; intros; try discriminate;
      try reflexivity; lra.
  - apply IH. intros r Hr. apply Hshape. now right.
Qed.

Lemma growth_bar_colors_witness :
  Forall2 (fun row bar =>
             bar_x bar = growth_drive row /\
             (bar_color bar = "#ff6b6b" <-> Initial row < Current row)%Q /\
             (bar_color bar = "#51cf66" <-> Current row <= Initial row)%Q)
          [ {| growth_drive := "C:"; Initial := 40; Current := 58;
               Growth := 18; AvgDailyGrowth := 18 # 2 |} ]
          [ {| bar_x := "C:"; bar_y := 18; bar_color := "#ff6b6b" |} ].
Proof.
  apply (growth_bar_colors ["C:"; "D:"] sample_df); vm_compute; reflexivity.
Defined.

(** ** More on the table search *)

Lemma re_compile_pattern_of (q : string) :
  plain_or_dot q -> re_compile q = Some (pattern_of q).
Proof.
  unfold plain_or_dot, pattern_of. induction q as [|c q IH]; simpl; intros Hq;
    [reflexivity|].
  inversion Hq as [|? ? Hc Hq']; subst. rewrite (IH Hq'). simpl.
  destruct (c =? ".")%char eqn:Edot; [reflexivity|].
  destruct Hc as [-> | ->]; [discriminate Edot | reflexivity].
Qed.

Lemma item_match_char (c x : ascii) :
  item_match (if (c =? ".")%char then AnyChar else Lit c) x = true <-> char_matches c x.
Proof.
  unfold char_matches. destruct (c =? ".")%char; simpl.
  - rewrite negb_true_iff. apply Ascii.eqb_neq.
  - apply Ascii.eqb_eq.
Qed.

Lemma match_here_window (q s : string) :
  match_here (pattern_of q) s = true <->
  exists mid post,
    s = (mid ++ post)%string /\
    Forall2 char_matches (list_ascii_of_string q) (list_ascii_of_string mid).
Proof.
  unfold pattern_of. revert s. induction q as [|c q IH]; intros s; simpl.
  - split; [|reflexivity]. intros _. exists EmptyString, s. split; [reflexivity | constructor].
  - destruct s as [|x s].
    + split; [discriminate|]. intros (mid & post & Hs & Hm).
      destruct mid; [inversion Hm | discriminate Hs].
    + rewrite andb_true_iff, item_match_char, IH. split.
      * intros (Hc & mid & post & -> & Hm). exists (String x mid), post.
        split; [reflexivity | now constructor].
      * intros (mid & post & Hs & Hm). destruct mid as [|y mid]; [inversion Hm|].
        simpl in Hs, Hm. injection Hs as <- ->. inversion Hm; subst.
        split; [assumption|]. now exists mid, post.
Qed.

Lemma window_cons (q : string) (x : ascii) (s : string) :
  window_matches q (String x s) <->
  (exists mid post,
      String x s = (mid ++ post)%string /\
      Forall2 char_matches (list_ascii_of_string q) (list_ascii_of_string mid)) \/
  window_matches q s.
Proof.
  unfold window_matches. split.
  - intros ([|a pre] & mid & post & Hs & Hm); simpl in Hs.
    + left. now exists mid, post.
    + right. injection Hs as _ ->. now exists pre, mid, post.
  - intros [(mid & post & Hs & Hm) | (pre & mid & post & -> & Hm)].
    + now exists EmptyString, mid, post.
    + now exists (String x pre), mid, post.
Qed.

Lemma re_search_window (q s : string) :
  re_search (pattern_of q) s = true <-> window_matches q s.
Proof.
  induction s as [|x s IH].
  - simpl re_search. rewrite orb_false_r, match_here_window.
    unfold window_matches. split.
    + intros (mid & post & Hs & Hm). now exists EmptyString, mid, post.
    + intros ([|a pre] & mid & post & Hs & Hm); simpl in Hs; [|discriminate].
      now exists mid, post.
  - simpl re_search. now rewrite orb_true_iff, match_here_window, IH, window_cons.
Qed.

Section SearchProperties.

Variable astype_str : Reading -> list string.

(** X17: for a non-empty query made of ordinary characters and dots, the
    table search keeps a row exactly when some column's string form has a
    window that agrees with the query character by character, a dot
    standing for any character but a newline and any other character for
    itself up to case. *)
Theorem table_search_wildcard (search_query : string) (display_df : DataFrame) :
  search_query <> EmptyString ->
  plain_or_dot search_query ->
  exists kept,
    table_search astype_str search_query display_df = Some kept /\
    forall row,
      In row kept <->
      In row display_df /\
      exists col, In col (astype_str row) /\ window_matches search_query col.
Proof.
  intros Hne Hq. unfold table_search.
  destruct (search_query =? "")%string eqn:E;
    [apply String.eqb_eq in E; contradiction|].
  rewrite (re_compile_pattern_of _ Hq). eexists. split; [reflexivity|].
  intros row. rewrite filter_In, existsb_exists.
  split; intros [Hin (col & Hcol & Hm)]; (split; [exact Hin|]); exists col;
    (split; [exact Hcol|]); now apply re_search_window.
Qed.

(** X19: the rows the search keeps are rows of the displayed frame, in
    their order, and searching the result again with the same query keeps
    all of it; an empty query keeps the whole frame. *)
Theorem table_search_filters (search_query : string) (display_df kept : DataFrame) :
  table_search astype_str search_query display_df = Some kept ->
  (exists keep, kept = filter keep display_df) /\
  table_search astype_str search_query kept = Some kept /\
  (search_query = EmptyString -> kept = display_df).
Proof.
  unfold table_search. destruct (search_query =? "")%string eqn:E.
  - intros [= <-]. split; [|split; [reflexivity | reflexivity]].
    exists (fun _ => true). symmetry. now apply filter_all.
  - destruct (re_compile search_query) as [pattern|]; [|discriminate].
    intros [= <-]. split; [eexists; reflexivity|]. split.
    + now rewrite filter_twice.
    + intros ->. discriminate E.
Qed.

End SearchProperties.

Lemma table_search_wildcard_witness :
  let astype_str := fun r : Reading => [Drive r] in
  exists kept,
    table_search astype_str "c." sample_df = Some kept /\
    forall row,
      In row kept <->
      In row sample_df /\
      exists col, In col (astype_str row) /\ window_matches "c." col.
Proof.
  intros astype_str. apply (table_search_wildcard astype_str "c." sample_df).
  - discriminate.
  - unfold plain_or_dot. simpl.
    constructor; [right; reflexivity|]. constructor; [left; reflexivity | constructor].
Defined.

Lemma table_search_filters_witness :
  let astype_str := fun r : Reading => [Drive r] in
  table_search astype_str "d" [sample_d2] = Some [sample_d2].
Proof.
  intros astype_str.
  apply (table_search_filters astype_str "d" sample_df [sample_d2]). reflexivity.
Defined.

(** Case does not matter. *)

Lemma to_lower_facts (c : ascii) :
  to_lower (to_lower c) = to_lower c /\
  (to_lower c =? ".")%char = (c =? ".")%char /\
  (to_lower c =? newline)%char = (c =? newline)%char /\
  is_special (to_lower c) = is_special c.
Proof.
  destruct c as [[] [] [] [] [] [] [] []]; vm_compute; repeat split.
Qed.

Lemma lower_empty (q : string) : (lower q =? "")%string = (q =? "")%string.
Proof. destruct q; reflexivity. Qed.

Lemma re_compile_lower (q : string) :
  re_compile (lower q) = option_map (map lower_item) (re_compile q).
Proof.
  induction q as [|c q IH]; simpl; [reflexivity|].
  destruct (to_lower_facts c) as (_ & -> & _ & ->). rewrite IH.
  destruct (c =? ".")%char; [now destruct (re_compile q)|].
  destruct (is_special c); [reflexivity | now destruct (re_compile q)].
Qed.

Lemma item_match_lower (i : re_item) (x : ascii) :
  item_match (lower_item i) x = item_match i x /\
  item_match i (to_lower x) = item_match i x.
Proof.
  destruct i as [c|]; simpl.
  - destruct (to_lower_facts c) as (-> & _). destruct (to_lower_facts x) as (-> & _).
    now split.
  - destruct (to_lower_facts x) as (_ & _ & -> & _). now split.
Qed.

Lemma match_here_lower (items : list re_item) (s : string) :
  match_here (map lower_item items) s = match_here items s /\
  match_here items (lower s) = match_here items s.
Proof.
  revert s. induction items as [|i items IH]; intros s; simpl; [now split|].
  destruct s as [|x s]; simpl; [now split|].
  destruct (item_match_lower i x) as [-> ->]. destruct (IH s) as [-> ->]. now split.
Qed.

Lemma re_search_lower (items : list re_item) (s : string) :
  re_search (map lower_item items) s = re_search items s /\
  re_search items (lower s) = re_search items s.
Proof.
  induction s as [|x s [IH1 IH2]].
  - simpl. destruct (match_here_lower items EmptyString) as [-> _]. now split.
  - cbn [re_search lower]. rewrite IH1, IH2.
    destruct (match_here_lower items (String x s)) as [-> H2]. cbn [lower] in H2.
    now rewrite H2.
Qed.

(** X18: the search ignores case on both sides: putting the query in
    lower case, or the columns' string forms, changes nothing in the
    result (an unsupported pattern stays unsupported). *)
Theorem table_search_ignores_case (astype_str : Reading -> list string)
    (search_query : string) (display_df : DataFrame) :
  table_search astype_str (lower search_query) display_df
  = table_search astype_str search_query display_df /\
  table_search (fun row => map lower (astype_str row)) search_query display_df
  = table_search astype_str search_query display_df.
Proof.
  unfold table_search. rewrite lower_empty, re_compile_lower.
  destruct (search_query =? "")%string; [now split|].
  destruct (re_compile search_query) as [pattern|]; [|now split]. simpl. split.
  - f_equal. apply filter_ext. intros row. induction (astype_str row) as [|col cols IH];
      [reflexivity|].
    simpl. rewrite IH. now destruct (re_search_lower pattern col) as [-> _].
  - f_equal. apply filter_ext. intros row. induction (astype_str row) as [|col cols IH];
      [reflexivity|].
    simpl. rewrite IH. now destruct (re_search_lower pattern col) as [_ ->].
Qed.

(** ** Independence of row order and of the sorting algorithm *)

Lemma filter_Permutation {A : Type} (f : A -> bool) (l l' : list A) :
  Permutation l l' -> Permutation (filter f l) (filter f l').
Proof.
  induction 1 as [| x l l' _ IH | x y l | l l' l'' _ IH1 _ IH2]; simpl.
  - constructor.
  - destruct (f x); [now constructor | exact IH].
  - destruct (f x), (f y); try reflexivity. apply perm_swap.
  - now transitivity (filter f l').
Qed.

Lemma restrict_Permutation (df df' : DataFrame) (selected_drives : option (list string)) :
  Permutation df df' ->
  Permutation (restrict df selected_drives) (restrict df' selected_drives).
Proof.
  intros Hperm. unfold restrict. destruct selected_drives as [drives|]; [|exact Hperm].
  destruct (empty drives); [exact Hperm | now apply filter_Permutation].
Qed.

Lemma map_determined {A B : Type} (f : A -> B) (l1 l2 : list A) :
  map f l1 = map f l2 ->
  (forall a b, In a l1 -> In b l2 -> f a = f b -> a = b) ->
  l1 = l2.
Proof.
  revert l2. induction l1 as [|a l1 IH]; intros [|b l2] Hmap Hdet;
    try discriminate; [reflexivity|].
  injection Hmap as Hab Hmap. f_equal.
  - apply Hdet; [now left | now left | exact Hab].
  - apply IH; [exact Hmap|]. intros x y Hx Hy. apply Hdet; now right.
Qed.

Lemma latest_rows_determined (S1 S2 : SortValues) (rows rows' : DataFrame) :
  Permutation rows rows' -> distinct_dates rows ->
  groupby_first (@sort_values S1 false rows) = groupby_first (@sort_values S2 false rows').
Proof.
  intros Hperm Hdistinct.
  destruct (@latest_rows_spec S1 rows) as (_ & Hd1 & Hr1).
  destruct (@latest_rows_spec S2 rows') as (_ & Hd2 & Hr2).
  apply (map_determined Drive).
  - rewrite !groupby_first_drives, !group_keys_all_drives.
    apply all_drives_members. intros d.
    assert (Hp : Permutation (@sort_values S1 false rows) (@sort_values S2 false rows')).
    { transitivity rows; [symmetry; apply sort_values_perm|].
      transitivity rows'; [exact Hperm | apply sort_values_perm]. }
    split; intros Hd.
    + eapply Permutation_in; [apply Permutation_map; exact Hp | exact Hd].
    + eapply Permutation_in; [symmetry; apply Permutation_map; exact Hp | exact Hd].
  - intros a b Ha Hb Hab.
    destruct (Hr1 a Ha) as [Hina Hmaxa]. destruct (Hr2 b Hb) as [Hinb Hmaxb].
    assert (Hinb' : In b rows) by (eapply Permutation_in; [symmetry; exact Hperm | exact Hinb]).
    assert (Hina' : In a rows') by (eapply Permutation_in; [exact Hperm | exact Hina]).
    apply Hdistinct; auto.
    pose proof (Hmaxa b Hinb' (eq_sym Hab)). pose proof (Hmaxb a Hina' Hab). lia.
Qed.

(** X20: when no two readings of a drive carry the same Date, the
    statistics depend neither on the order of the rows of the frame nor on
    how the sort orders equal dates: two frames with the same rows give
    the same record under any two sorting implementations. *)
Theorem get_latest_stats_order_independent (S1 S2 : SortValues)
    (df df' : DataFrame) (selected_drives : option (list string)) :
  Permutation df df' -> distinct_dates df ->
  @get_latest_stats S1 df selected_drives = @get_latest_stats S2 df' selected_drives.
Proof.
  intros Hperm Hdistinct. unfold get_latest_stats.
  pose proof (restrict_Permutation df df' selected_drives Hperm) as Hr.
  assert (Hempty : forall l l' : DataFrame, Permutation l l' -> empty l = empty l').
  { intros l l' Hp. destruct l as [|a l].
    - apply Permutation_nil in Hp. now subst l'.
    - destruct l' as [|b l']; [|reflexivity].
      apply Permutation_sym, Permutation_nil in Hp. discriminate Hp. }
  rewrite <- (Hempty _ _ Hperm), <- (Hempty _ _ Hr).
  destruct (empty df); [reflexivity|].
  destruct (empty (restrict df selected_drives)); [reflexivity|].
  rewrite (latest_rows_determined S1 S2 _ _ Hr); [reflexivity|].
  intros r r' Hin Hin'. apply Hdistinct; eapply restrict_incl; eassumption.
Qed.

Lemma sample_distinct_dates : distinct_dates sample_df.
Proof.
  intros r r' Hr Hr' _. simpl in Hr, Hr'.
  repeat destruct Hr as [<- | Hr]; repeat destruct Hr' as [<- | Hr'];
    try reflexivity; try contradiction; intros Hd; vm_compute in Hd; discriminate Hd.
Qed.

Lemma get_latest_stats_order_independent_witness :
  get_latest_stats sample_df None = get_latest_stats (rev sample_df) None.
Proof.
  apply (get_latest_stats_order_independent merge_sort merge_sort sample_df (rev sample_df) None).
  - apply Permutation_rev.
  - exact sample_distinct_dates.
Defined.

Lemma ascending_rows_unique (l1 l2 : DataFrame) :
  StronglySorted (fun a b => Date a <= Date b) l1 ->
  StronglySorted (fun a b => Date a <= Date b) l2 ->
  Permutation l1 l2 ->
  (forall r r', In r l1 -> In r' l1 -> Date r = Date r' -> r = r') ->
  l1 = l2.
Proof.
  revert l2. induction l1 as [|a l1 IH]; intros l2 Hs1 Hs2 Hperm Hinj.
  - apply Permutation_nil in Hperm. now subst l2.
  - destruct l2 as [|b l2]; [apply Permutation_sym, Permutation_nil in Hperm; discriminate|].
    apply StronglySorted_inv in Hs1, Hs2.
    destruct Hs1 as [Hs1 Ha], Hs2 as [Hs2 Hb]. rewrite Forall_forall in Ha, Hb.
    assert (Hab : a = b).
    { assert (Hina : In a (b :: l2)) by (eapply Permutation_in; [exact Hperm | now left]).
      assert (Hinb : In b (a :: l1))
        by (eapply Permutation_in; [symmetry; exact Hperm | now left]).
      destruct Hina as [Heq | Hina]; [now symmetry|].
      destruct Hinb as [Heq | Hinb]; [exact Heq|].
      apply Hinj; [now left | now right|].
      pose proof (Ha b Hinb). pose proof (Hb a Hina). lia. }
    subst b. f_equal. apply IH; auto.
    + now apply Permutation_cons_inv in Hperm.
    + intros r r' Hr Hr'. apply Hinj; now right.
Qed.

Lemma drive_rows_determined (S1 S2 : SortValues) (filtered filtered' : DataFrame)
    (drive : string) :
  Permutation filtered filtered' -> distinct_dates filtered ->
  @drive_rows S1 filtered drive = @drive_rows S2 filtered' drive.
Proof.
  intros Hperm Hdistinct. unfold drive_rows.
  set (f := fun r => (Drive r =? drive)%string).
  apply ascending_rows_unique.
  - apply sort_values_ascending.
  - apply sort_values_ascending.
  - rewrite <- (@sort_values_perm S1 true (filter f filtered)).
    rewrite <- (@sort_values_perm S2 true (filter f filtered')).
    now apply filter_Permutation.
  - intros r r' Hr Hr'.
    apply (Permutation_in _ (Permutation_sym (@sort_values_perm S1 true _))) in Hr, Hr'.
    apply filter_In in Hr, Hr'. destruct Hr as [Hr Hd], Hr' as [Hr' Hd'].
    unfold f in Hd, Hd'. apply String.eqb_eq in Hd, Hd'.
    apply Hdistinct; auto. congruence.
Qed.

(** X21: when no two readings of a drive carry the same Date, the growth
    analysis too depends neither on the order of the rows of the filtered
    frame nor on the sorting implementation. *)
Theorem growth_analysis_order_independent (S1 S2 : SortValues)
    (selected_drives : list string) (filtered filtered' : DataFrame) :
  Permutation filtered filtered' -> distinct_dates filtered ->
  @growth_analysis S1 selected_drives filtered
  = @growth_analysis S2 selected_drives filtered'.
Proof.
  intros Hperm Hdistinct. unfold growth_analysis.
  rewrite (@growth_loop_cases S1), (@growth_loop_cases S2).
  assert (Hover : forall d, @overflows S1 filtered d = @overflows S2 filtered' d).
  { intros d. unfold overflows.
    now rewrite (drive_rows_determined S1 S2 filtered filtered' d Hperm Hdistinct). }
  assert (Hrows : @growth_rows_of S1 filtered selected_drives
                  = @growth_rows_of S2 filtered' selected_drives).
  { unfold growth_rows_of. induction selected_drives as [|d drives IH]; [reflexivity|].
    cbn [flat_map]. rewrite IH.
    now rewrite (drive_rows_determined S1 S2 filtered filtered' d Hperm Hdistinct). }
  rewrite Hrows.
  replace (existsb (@overflows S1 filtered) selected_drives)
    with (existsb (@overflows S2 filtered') selected_drives); [reflexivity|].
  clear Hrows. induction selected_drives as [|d drives IH]; simpl;
    [reflexivity | now rewrite Hover, IH].
Qed.

Lemma growth_analysis_order_independent_witness :
  growth_analysis ["C:"; "D:"] sample_df = growth_analysis ["C:"; "D:"] (rev sample_df).
Proof.
  apply (growth_analysis_order_independent merge_sort merge_sort).
  - apply Permutation_rev.
  - exact sample_distinct_dates.
Defined.
